(** * IDC price-list reconstruction: a shallow embedding of
      [src/providers/idc_pdf.py] and [src/providers/registry.py].

    Python [str] values are lists of Unicode code points.  The character
    classes of [str.strip], [\s], [\d] and [re.IGNORECASE] are the ones of
    CPython (Unicode 14 tables for the decimal digits).  Regular expressions
    are run by a small backtracking matcher with greedy quantifiers, the
    strategy of CPython's [re] module; every pattern of the source is a value
    of type [regex] that mirrors its text. *)

From Stdlib Require Import String Ascii.
From Stdlib Require Import List NArith ZArith QArith Bool Arith Lia.
Import ListNotations.

Open Scope N_scope.

(** ** Characters and strings *)

(** A character is its code point. *)
Definition char := N.

(** A Python [str]. *)
Definition pystr := list char.

(** The [str] that an ASCII literal denotes. *)
Definition str (s : string) : pystr := map N_of_ascii (list_ascii_of_string s).

(** [lo <= c <= hi] *)
Definition in_range (lo hi c : char) : bool := (lo <=? c) && (c <=? hi).

(** [str.isspace] on one character, which is also [\s] of [re] on [str]. *)
Definition isspace (c : char) : bool :=
  in_range 0x9 0xd c || in_range 0x1c 0x20 c || (c =? 0x85) || (c =? 0xa0)
  || (c =? 0x1680) || in_range 0x2000 0x200a c || (c =? 0x2028)
  || (c =? 0x2029) || (c =? 0x202f) || (c =? 0x205f) || (c =? 0x3000).

(** The code points of the digit zero of every decimal script (category Nd);
    the ten digits of a script are consecutive. *)
Definition decimal_zeros : list char :=
  [0x30; 0x660; 0x6f0; 0x7c0; 0x966; 0x9e6; 0xa66; 0xae6; 0xb66; 0xbe6;
   0xc66; 0xce6; 0xd66; 0xde6; 0xe50; 0xed0; 0xf20; 0x1040; 0x1090; 0x17e0;
   0x1810; 0x1946; 0x19d0; 0x1a80; 0x1a90; 0x1b50; 0x1bb0; 0x1c40; 0x1c50;
   0xa620; 0xa8d0; 0xa900; 0xa9d0; 0xa9f0; 0xaa50; 0xabf0; 0xff10; 0x104a0;
   0x10d30; 0x11066; 0x110f0; 0x11136; 0x111d0; 0x112f0; 0x11450; 0x114d0;
   0x11650; 0x116c0; 0x11730; 0x118e0; 0x11950; 0x11c50; 0x11d50; 0x11da0;
   0x16a60; 0x16ac0; 0x16b50; 0x1d7ce; 0x1d7d8; 0x1d7e2; 0x1d7ec; 0x1d7f6;
   0x1e140; 0x1e2f0; 0x1e950; 0x1fbf0].

Definition decimal_value (c : char) : option N :=
  match find (fun z => in_range z (z + 9) c) decimal_zeros with
  | Some z => Some (c - z)
  | None => None
  end.

(** [\d] of [re] on [str]: any Unicode decimal digit. *)
Definition isdecimal (c : char) : bool :=
  match decimal_value c with Some _ => true | None => false end.

(** A literal letter under [re.IGNORECASE]: both ASCII cases, and the three
    letters whose case folding leaves ASCII. *)
Definition ignorecase (l : char) (c : char) : bool :=
  let lo := if in_range 0x41 0x5a l then l + 32 else l in
  if in_range 0x61 0x7a lo then
    (c =? lo) || (c =? lo - 32)
    || ((lo =? 0x69) && ((c =? 0x130) || (c =? 0x131)))
    || ((lo =? 0x73) && (c =? 0x17f))
    || ((lo =? 0x6b) && (c =? 0x212a))
  else c =? lo.

Definition lit (l : char) (c : char) : bool := c =? l.

Definition dollar : char := 0x24.
Definition plus_sign : char := 0x2b.
Definition comma : char := 0x2c.
Definition dot : char := 0x2e.
Definition newline : char := 0xa.
Definition blank : char := 0x20.

(** [[0-9\.\,]] *)
Definition numpunct (c : char) : bool :=
  in_range 0x30 0x39 c || (c =? dot) || (c =? comma).

(** [.] without [re.DOTALL] *)
Definition anychar (c : char) : bool := negb (c =? newline).

(** ** String methods *)

Fixpoint takeWhile (p : char -> bool) (s : pystr) : pystr :=
  match s with
  | c :: t => if p c then c :: takeWhile p t else []
  | [] => []
  end.

Fixpoint dropWhile (p : char -> bool) (s : pystr) : pystr :=
  match s with
  | c :: t => if p c then dropWhile p t else s
  | [] => []
  end.

Definition lstrip (s : pystr) : pystr := dropWhile isspace s.

Definition rstrip (s : pystr) : pystr := rev (lstrip (rev s)).

(** [s.strip()] *)
Definition strip (s : pystr) : pystr := rstrip (lstrip s).

(** [s.startswith(prefix)] *)
Fixpoint startswith (prefix s : pystr) : bool :=
  match prefix, s with
  | [], _ => true
  | p :: prefix', c :: s' => (c =? p) && startswith prefix' s'
  | _ :: _, [] => false
  end.

(** [sub in s] *)
Fixpoint contains (sub s : pystr) : bool :=
  startswith sub s ||
  match s with
  | [] => false
  | _ :: s' => contains sub s'
  end.

(** [s.split(sep)] for a separator of one character. *)
Fixpoint split (sep : char) (s : pystr) : list pystr :=
  match s with
  | [] => [[]]
  | c :: t =>
      if c =? sep then [] :: split sep t
      else match split sep t with
           | piece :: pieces => (c :: piece) :: pieces
           | [] => [[c]]
           end
  end.

(** [sep.join(parts)] *)
Fixpoint join (sep : pystr) (parts : list pystr) : pystr :=
  match parts with
  | [] => []
  | [p] => p
  | p :: ps => p ++ sep ++ join sep ps
  end.

(** [s.replace(old, new)] for [old] of one character. *)
Definition replace (old : char) (new : pystr) (s : pystr) : pystr :=
  flat_map (fun c => if c =? old then new else [c]) s.

(** [not s], for a string or a list. *)
Definition isnil {A : Type} (s : list A) : bool :=
  match s with [] => true | _ => false end.

(** ** Regular expressions *)

Inductive item : Type :=
| Chr (p : char -> bool)              (* one character of a class *)
| Opt (p : char -> bool)              (* p?  *)
| Star (p : char -> bool)             (* p*  *)
| Plus (p : char -> bool)             (* p+  *)
| Times (n : nat) (p : char -> bool)  (* p{n} *)
| GOpen                               (* (   *)
| GClose                              (* )   *)
| Bol                                 (* ^   *)
| Eol.                                (* $   *)

Definition regex := list item.

(** Groups under construction: the suffixes at which the open groups began,
    and the closed groups, last closed first. *)
Record mstate : Type := { opened : list pystr; closed : list pystr }.

(** A match: the captured groups in order, and the text after the match. *)
Record mresult : Type := { m_groups : list pystr; m_rest : pystr }.

Definition st0 : mstate := {| opened := []; closed := [] |}.

Definition open_group (st : mstate) (s : pystr) : mstate :=
  {| opened := s :: opened st; closed := closed st |}.

Definition close_group (st : mstate) (s : pystr) : mstate :=
  match opened st with
  | o :: os =>
      {| opened := os;
         closed := firstn (length o - length s) o :: closed st |}
  | [] => st
  end.

(** Greedy repetition: the longest run first, giving characters back one by
    one while the rest of the pattern fails. *)
Fixpoint greedy (p : char -> bool) (k : pystr -> option mresult)
         (s : pystr) : option mresult :=
  match s with
  | c :: t =>
      if p c then
        match greedy p k t with
        | Some r => Some r
        | None => k s
        end
      else k s
  | [] => k s
  end.

Fixpoint exactly (n : nat) (p : char -> bool) (k : pystr -> option mresult)
         (s : pystr) : option mresult :=
  match n with
  | O => k s
  | S n' =>
      match s with
      | c :: t => if p c then exactly n' p k t else None
      | [] => None
      end
  end.

(** [exec len0 re st s]: match [re] at the suffix [s] of a subject of length
    [len0]. *)
Fixpoint exec (len0 : nat) (re : regex) (st : mstate) (s : pystr)
  : option mresult :=
  match re with
  | [] => Some {| m_groups := rev (closed st); m_rest := s |}
  | it :: re' =>
      let k := exec len0 re' in
      match it with
      | Chr p =>
          match s with
          | c :: t => if p c then k st t else None
          | [] => None
          end
      | Opt p =>
          match s with
          | c :: t =>
              if p c then
                match k st t with
                | Some r => Some r
                | None => k st s
                end
              else k st s
          | [] => k st s
          end
      | Star p => greedy p (k st) s
      | Plus p =>
          match s with
          | c :: t => if p c then greedy p (k st) t else None
          | [] => None
          end
      | Times n p => exactly n p (k st) s
      | GOpen => k (open_group st s) s
      | GClose => k (close_group st s) s
      | Bol => if Nat.eqb (length s) len0 then k st s else None
      | Eol =>
          match s with
          | [] => k st s
          | [c] => if c =? newline then k st s else None
          | _ => None
          end
      end
  end.

(** [pattern.match(s)] *)
Definition re_match (re : regex) (s : pystr) : option mresult :=
  exec (length s) re st0 s.

Fixpoint search_from (len0 : nat) (re : regex) (s : pystr) : option mresult :=
  match exec len0 re st0 s with
  | Some r => Some r
  | None =>
      match s with
      | [] => None
      | _ :: t => search_from len0 re t
      end
  end.

(** [pattern.search(s)] *)
Definition re_search (re : regex) (s : pystr) : option mresult :=
  search_from (length s) re s.

(** Number of characters a match found at [s] has consumed. *)
Definition consumed (s : pystr) (r : mresult) : nat :=
  length s - length (m_rest r).

(** Left-to-right scan for successive matches; [skip] counts the characters
    of the previous match still to step over.  No pattern of the source
    matches the empty string. *)
Fixpoint finditer_from (len0 : nat) (re : regex) (skip : nat) (s : pystr)
  : list mresult :=
  match skip with
  | S skip' =>
      match s with
      | [] => []
      | _ :: t => finditer_from len0 re skip' t
      end
  | O =>
      match exec len0 re st0 s with
      | Some r =>
          r :: match s with
               | [] => []
               | _ :: t => finditer_from len0 re (pred (consumed s r)) t
               end
      | None =>
          match s with
          | [] => []
          | _ :: t => finditer_from len0 re 0 t
          end
      end
  end.

(** [re.finditer(pattern, s)] *)
Definition re_finditer (re : regex) (s : pystr) : list mresult :=
  finditer_from (length s) re 0 s.

Fixpoint sub_from (len0 : nat) (re : regex) (repl : pystr) (skip : nat)
         (s : pystr) : pystr :=
  match skip with
  | S skip' =>
      match s with
      | [] => []
      | _ :: t => sub_from len0 re repl skip' t
      end
  | O =>
      match exec len0 re st0 s with
      | Some r =>
          repl ++
          match s with
          | [] => []
          | c :: t =>
              match consumed s r with
              | O => c :: sub_from len0 re repl 0 t
              | S n => sub_from len0 re repl n t
              end
          end
      | None =>
          match s with
          | [] => []
          | c :: t => c :: sub_from len0 re repl 0 t
          end
      end
  end.

(** [re.sub(pattern, repl, s)] for a replacement without group references. *)
Definition re_sub (re : regex) (repl : pystr) (s : pystr) : pystr :=
  sub_from (length s) re repl 0 s.

(** [m.group(n)] for [n >= 1]. *)
Definition group (r : mresult) (n : nat) : pystr :=
  nth (pred n) (m_groups r) [].

(** A literal word under [re.IGNORECASE]. *)
Definition nocase (w : pystr) : regex := map (fun l => Chr (ignorecase l)) w.

(** ** The patterns of [idc_pdf.py] *)

(** [\$?\s*([0-9\.\,]+)] *)
Definition _PRICE_RE : regex :=
  [Opt (lit dollar); Star isspace; GOpen; Plus numpunct; GClose].

(** [^(\d{6})\s+(.+)$] *)
Definition _SKU_INLINE_RE : regex :=
  [Bol; GOpen; Times 6 isdecimal; GClose; Plus isspace;
   GOpen; Plus anychar; GClose; Eol].

(** [(\+?\d+)\s*UNIDADES], [re.IGNORECASE] *)
Definition _UNITS_RE : regex :=
  [GOpen; Opt (lit plus_sign); Plus isdecimal; GClose; Star isspace]
  ++ nocase (str "UNIDADES").

(** [\$\s*([0-9\.\,]+)\s*\+\s*iva], [re.IGNORECASE]; the pattern inlined in
    [_extract_prices_from_line]. *)
Definition PRICE_IVA_RE : regex :=
  [Chr (lit dollar); Star isspace; GOpen; Plus numpunct; GClose;
   Star isspace; Chr (lit plus_sign); Star isspace]
  ++ nocase (str "iva").


(** ** Conversions *)

Definition all_of (p : char -> bool) (s : pystr) : bool := forallb p s.

Definition isascii_digit (c : char) : bool := in_range 0x30 0x39 c.

(** Value of a run of decimal digits, most significant first. *)
Fixpoint digits_value (acc : N) (s : pystr) : N :=
  match s with
  | [] => acc
  | c :: t =>
      digits_value
        (10 * acc + match decimal_value c with Some d => d | None => 0 end) t
  end.

(** [sys.get_int_max_str_digits()], CPython's default. *)
Definition int_max_str_digits : nat := 4300.

(** [int(s)] for [s] without sign, blank or underscore, the only strings
    [_parse_stock] converts: a non-empty run of decimal digits, of at most
    [int_max_str_digits] digits; [None] is [ValueError]. *)
Definition py_int (s : pystr) : option Z :=
  if isnil s then None
  else if negb (all_of isdecimal s) then None
  else if Nat.ltb int_max_str_digits (length s) then None
  else Some (Z.of_N (digits_value 0 s)).

Definition pow10 (n : nat) : positive :=
  match N.of_nat n with
  | N0 => 1%positive
  | Npos p => Pos.pow 10 p
  end.

(** [float(s)] for [s] over ASCII digits and [.], the only strings
    [_parse_price_to_float] converts: digits with at most one point and at
    least one digit; [None] is [ValueError].  The value is the decimal the
    text denotes; the interpreter holds the binary64 number nearest to it. *)
Definition py_float (s : pystr) : option Q :=
  match split dot s with
  | [ip] =>
      if isnil ip || negb (all_of isascii_digit ip) then None
      else Some (Z.of_N (digits_value 0 ip) # 1)
  | [ip; fp] =>
      if isnil (ip ++ fp) || negb (all_of isascii_digit (ip ++ fp)) then None
      else Some (Z.of_N (digits_value 0 (ip ++ fp)) # pow10 (length fp))
  | _ => None
  end.

(** ** The normalizers *)

Definition _parse_price_to_float (text : pystr) : option Q :=
  if isnil text then None
  else
    match re_search _PRICE_RE text with
    | None => None
    | Some m =>
        let raw := strip (group m 1) in
        let raw :=
          if contains [comma] raw && contains [dot] raw then
            replace comma [dot] (replace dot [] raw)
          else if contains [comma] raw && negb (contains [dot] raw) then
            replace comma [dot] raw
          else raw in
        py_float raw
    end.

Definition _parse_stock (text : pystr) : option Z :=
  if isnil text then None
  else
    match re_search _UNITS_RE text with
    | None => None
    | Some m => py_int (replace plus_sign [] (group m 1))
    end.

(** [name] is [None] or a [str]; [name or ""] maps both [None] and the empty
    string to the empty string. *)
Definition _cleanup_name (name : option pystr) : pystr :=
  let name := strip (match name with Some s => s | None => [] end) in
  re_sub [Plus isspace] [blank] name.

Definition _extract_prices_from_line (text : pystr) : list pystr :=
  map (fun m => dollar :: group m 1) (re_finditer PRICE_IVA_RE text).

(** ** The row reconstructor *)

(** [(sku, name, x1, x3, x6, stock, eta)] *)
Record row : Type := {
  sku : pystr; name : pystr;
  x1 : pystr; x3 : pystr; x6 : pystr;
  stock_text : pystr; eta_text : pystr }.

Record state : Type := {
  st_i : nat;
  st_name_buffer : list pystr;
  st_in_continuation : bool;
  st_rows : list row }.

Definition product_keywords : list pystr :=
  map str
    ["Laptop"; "Monitor"; "Nas"; "Pc"; "Aio"; "Celular"; "Central";
     "Generador"; "Impresora"; "Scanner"; "Tablet"; "Desktop"; "Server";
     "Router"; "Switch"; "Firewall"; "Access"; "Camera"; "Webcam"; "Teclado";
     "Mouse"; "Audifonos"; "Parlante"; "Microfono"; "Disco"; "Ssd"; "Ram";
     "Memoria"; "Procesador"; "Tarjeta"; "Cable"; "Adaptador"; "Hub"; "Dock";
     "Fuente"; "UPS"; "Bateria"; "Pantalla"; "Proyector"; "Tv";
     "Smart"]%string.

(** U+1F4BC, the briefcase glyph, and U+2022, the bullet. *)
Definition briefcase : char := 0x1F4BC.
Definition bullet : char := 0x2022.

(** The guard of the header and footer branch. *)
Definition is_noise (line : pystr) : bool :=
  isnil line
  || contains (str "SKU IDC") line
  || contains (str "NOMBRE DEL PRODUCTO") line
  || contains (str "FORMAS DE PAGO") line
  || startswith (str "Gratis") line
  || startswith [briefcase] line
  || startswith [bullet] line.

(** [sku_match and "$" in line] *)
Definition sku_with_price (line : pystr) : option mresult :=
  match re_match _SKU_INLINE_RE line with
  | Some sku_match => if contains [dollar] line then Some sku_match else None
  | None => None
  end.

(** [prices[k] if len(prices) > k else ""] *)
Definition price_at (prices : list pystr) (k : nat) : pystr :=
  if Nat.ltb k (length prices) then nth k prices [] else [].

(** The branch of a line with SKU and prices. *)
Definition open_record (line : pystr) (sku_match : mresult) (st : state)
  : state :=
  let sku := group sku_match 1 in
  let rest_of_line := group sku_match 2 in
  let prices := _extract_prices_from_line line in
  let name_parts := st_name_buffer st in
  let name_parts :=
    if contains [dollar] rest_of_line then
      let before_price := strip (hd [] (split dollar rest_of_line)) in
      if negb (isnil before_price) then name_parts ++ [before_price]
      else name_parts
    else name_parts ++ [rest_of_line] in
  let name := _cleanup_name (Some (join [blank] name_parts)) in
  let x1 := price_at prices 0 in
  let x3 := price_at prices 1 in
  let x6 := price_at prices 2 in
  let stock_text := line in
  {| st_i := S (st_i st);
     st_name_buffer := [];
     st_in_continuation := true;
     st_rows := st_rows st ++
       [{| sku := sku; name := name; x1 := x1; x3 := x3; x6 := x6;
           stock_text := stock_text; eta_text := stock_text |}] |}.

(** One pass through the body of the [while] loop, for the stripped line. *)
Definition on_line (line : pystr) (st : state) : state :=
  if is_noise line then
    {| st_i := S (st_i st); st_name_buffer := [];
       st_in_continuation := false; st_rows := st_rows st |}
  else
    match sku_with_price line with
    | Some sku_match => open_record line sku_match st
    | None =>
        if st_in_continuation st then
          if existsb (fun keyword => startswith keyword line) product_keywords
          then
            {| st_i := S (st_i st);
               st_name_buffer := st_name_buffer st ++ [line];
               st_in_continuation := false; st_rows := st_rows st |}
          else if contains [dollar] line then
            {| st_i := S (st_i st); st_name_buffer := st_name_buffer st;
               st_in_continuation := true; st_rows := st_rows st |}
          else
            {| st_i := S (st_i st); st_name_buffer := st_name_buffer st;
               st_in_continuation := true; st_rows := st_rows st |}
        else
          if contains [dollar] line then
            {| st_i := S (st_i st); st_name_buffer := st_name_buffer st;
               st_in_continuation := false; st_rows := st_rows st |}
          else
            {| st_i := S (st_i st);
               st_name_buffer := st_name_buffer st ++ [line];
               st_in_continuation := false; st_rows := st_rows st |}
    end.

Inductive outcome (A : Type) : Type :=
| Returned (a : A)
| IndexError
| OutOfFuel.
Arguments Returned {A} a.
Arguments IndexError {A}.
Arguments OutOfFuel {A}.

(** [line = lines[i].strip()] and the body; [None] is the [IndexError] of
    [lines[i]]. *)
Definition loop_body (lines : list pystr) (st : state) : option state :=
  match nth_error lines (st_i st) with
  | Some raw => Some (on_line (strip raw) st)
  | None => None
  end.

(** [while i < n: ...], one unit of fuel for each iteration. *)
Fixpoint while_loop (fuel : nat) (lines : list pystr) (st : state)
  : outcome (list row) :=
  if Nat.ltb (st_i st) (length lines) then
    match fuel with
    | O => OutOfFuel
    | S fuel' =>
        match loop_body lines st with
        | Some st' => while_loop fuel' lines st'
        | None => IndexError
        end
    end
  else Returned (st_rows st).

Definition init_state : state :=
  {| st_i := 0; st_name_buffer := []; st_in_continuation := false;
     st_rows := [] |}.

Definition _extract_rows_from_text_fuel (fuel : nat) (lines : list pystr)
  : outcome (list row) :=
  while_loop fuel lines init_state.

(** The scan with the fuel its termination proof shows to suffice
    ([extract_rows_returns] below). *)
Definition _extract_rows_from_text (lines : list pystr) : list row :=
  match _extract_rows_from_text_fuel (length lines) lines with
  | Returned rows => rows
  | _ => []
  end.


(** ** The record assembler *)

Fixpoint str_eqb (a b : pystr) : bool :=
  match a, b with
  | [], [] => true
  | x :: a', y :: b' => (x =? y) && str_eqb a' b'
  | _, _ => false
  end.

(** The Python values a cell of the table holds. *)
Inductive value : Type :=
| VNone
| VStr (s : pystr)
| VFloat (q : Q)
| VInt (z : Z).

(** A [dict] with [str] keys, in insertion order. *)
Definition record := list (pystr * value).

Fixpoint lookup {V : Type} (key : pystr) (d : list (pystr * V)) : option V :=
  match d with
  | [] => None
  | (k, v) :: d' => if str_eqb k key then Some v else lookup key d'
  end.

Definition has_column (c : pystr) (cols : list pystr) : bool :=
  existsb (str_eqb c) cols.

(** A [pandas.DataFrame]: the column labels, and one list of cells for each
    row, aligned with the labels. *)
Record DataFrame : Type := { columns : list pystr; data : list (list value) }.

(** Labels of [pd.DataFrame(out)]: the keys of the records, in order of first
    appearance. *)
Fixpoint union_keys (seen : list pystr) (keys : list pystr) : list pystr :=
  match keys with
  | [] => seen
  | k :: keys' =>
      union_keys (if has_column k seen then seen else seen ++ [k]) keys'
  end.

(** [pd.DataFrame(out)] for a list of records. *)
Definition DataFrame_of_records (out : list record) : DataFrame :=
  let cols := fold_left (fun seen r => union_keys seen (map fst r)) out [] in
  {| columns := cols;
     data :=
       map (fun r =>
              map (fun c => match lookup c r with Some v => v | None => VNone end)
                  cols) out |}.

(** [pd.DataFrame(columns=cols)] *)
Definition DataFrame_of_columns (cols : list pystr) : DataFrame :=
  {| columns := cols; data := [] |}.

(** [df.empty]: some axis has length zero. *)
Definition df_empty (df : DataFrame) : bool :=
  isnil (columns df) || isnil (data df).

(** [df[c] = v] for a label [c] that [df] does not have. *)
Definition df_add_column (c : pystr) (v : value) (df : DataFrame) : DataFrame :=
  {| columns := columns df ++ [c];
     data := map (fun r => r ++ [v]) (data df) |}.

Fixpoint select_cells (labels : list pystr) (cells : list value) (c : pystr)
  : option value :=
  match labels, cells with
  | l :: labels', v :: cells' =>
      if str_eqb l c then Some v else select_cells labels' cells' c
  | _, _ => None
  end.

(** [df[cols]]; [None] is the [KeyError] of a label [df] does not have. *)
Definition df_select (cols : list pystr) (df : DataFrame) : option DataFrame :=
  if forallb (fun c => has_column c (columns df)) cols then
    Some {| columns := cols;
            data :=
              map (fun r =>
                     map (fun c =>
                            match select_cells (columns df) r c with
                            | Some v => v
                            | None => VNone
                            end) cols) (data df) |}
  else None.

(** Modelled from the spec: the value of [STANDARD_COLUMNS] of
    [src/core/schema.py], which is not among the sources; the canonical
    column order of section 6. *)
Definition CANONICAL_COLUMNS : list pystr :=
  map str
    ["supplier"; "supplier_sku"; "title"; "brand"; "model"; "ean_upc";
     "category"; "condition"; "cost_x1_usd"; "cost_x3_usd"; "cost_x6_usd";
     "tax_included"; "stock"; "eta_text"; "source_file"]%string.

(** Line breaks of [str.splitlines]. *)
Definition islinebreak (c : char) : bool :=
  in_range 0xa 0xd c || in_range 0x1c 0x1e c || (c =? 0x85)
  || (c =? 0x2028) || (c =? 0x2029).

Fixpoint splitlines_from (after_cr : bool) (cur : pystr) (s : pystr)
  : list pystr :=
  match s with
  | [] => if isnil cur then [] else [cur]
  | c :: t =>
      if after_cr && (c =? 0xa) then splitlines_from false cur t
      else if islinebreak c then cur :: splitlines_from (c =? 0xd) [] t
      else splitlines_from false (cur ++ [c]) t
  end.

(** [text.splitlines()] *)
Definition splitlines (text : pystr) : list pystr :=
  splitlines_from false [] text.

Definition option_value {A : Type} (f : A -> value) (o : option A) : value :=
  match o with Some a => f a | None => VNone end.

Section Ingest.

(** [Path(input_path).name] of [pathlib]. *)
Variable path_name : pystr -> pystr.

(** [STANDARD_COLUMNS], imported from [src.core.schema]. *)
Variable STANDARD_COLUMNS : list pystr.

(** The lines of all pages: [page.extract_text() or ""], split, stripped,
    blank lines left out. *)
Definition page_lines (pages : list (option pystr)) : list pystr :=
  flat_map
    (fun page =>
       let text := match page with Some t => t | None => [] end in
       map strip
           (filter (fun ln => negb (isnil (strip ln))) (splitlines text)))
    pages.

Definition assemble (supplier_name input_path : pystr) (r : row) : record :=
  [ (str "supplier", VStr supplier_name);
    (str "supplier_sku", VStr (sku r));
    (str "title", VStr (name r));
    (str "brand", VNone);
    (str "model", VNone);
    (str "ean_upc", VNone);
    (str "category", VNone);
    (str "condition", VNone);
    (str "cost_x1_usd", option_value VFloat (_parse_price_to_float (x1 r)));
    (str "cost_x3_usd", option_value VFloat (_parse_price_to_float (x3 r)));
    (str "cost_x6_usd", option_value VFloat (_parse_price_to_float (x6 r)));
    (str "tax_included", VStr (str "no"));
    (str "stock", option_value VInt (_parse_stock (stock_text r)));
    (str "eta_text",
      if isnil (eta_text r) then VNone else VStr (strip (eta_text r)));
    (str "source_file", VStr (path_name input_path)) ].

(** [ingest_idc_pdf], from the texts the PDF reader extracts from the
    pages. *)
Definition ingest_idc_pdf (pages : list (option pystr))
           (input_path supplier_name : pystr) : option DataFrame :=
  let all_lines := page_lines pages in
  let raw_rows := _extract_rows_from_text all_lines in
  let out := map (assemble supplier_name input_path) raw_rows in
  let df := DataFrame_of_records out in
  let df := if df_empty df then DataFrame_of_columns STANDARD_COLUMNS else df in
  let df :=
    fold_left
      (fun df c =>
         if negb (has_column c (columns df)) then df_add_column c VNone df
         else df)
      STANDARD_COLUMNS df in
  df_select STANDARD_COLUMNS df.

End Ingest.

(** ** The provider registry *)

Inductive exn : Type := ValueError (msg : pystr).

Section Registry.

(** [ProviderFunction], and the built-in [repr] on [str]. *)
Variable ProviderFunction : Type.
Variable repr : pystr -> pystr.

(** [REGISTRY]: a [dict], which keeps its keys in insertion order. *)
Definition registry := list (pystr * ProviderFunction).

(** [REGISTRY[name] = func] *)
Fixpoint setitem (name : pystr) (func : ProviderFunction) (reg : registry)
  : registry :=
  match reg with
  | [] => [(name, func)]
  | (k, v) :: reg' =>
      if str_eqb k name then (k, func) :: reg'
      else (k, v) :: setitem name func reg'
  end.

(** [register(name)(func)]: the registry afterwards, and the function the
    decorator returns. *)
Definition register (name : pystr) (func : ProviderFunction)
           (reg : registry) : registry * ProviderFunction :=
  (setitem name func reg, func).

(** [list(REGISTRY.keys())] *)
Definition keys (reg : registry) : list pystr := map fst reg.

(** [str] of a list of [str]. *)
Definition list_repr (l : list pystr) : pystr :=
  str "[" ++ join (str ", ") (map repr l) ++ str "]".

Definition get_provider (reg : registry) (name : pystr)
  : exn + ProviderFunction :=
  match lookup name reg with
  | None =>
      inl (ValueError
             (str "Proveedor no registrado: " ++ name ++ str ". "
              ++ str "Disponibles: " ++ list_repr (keys reg)))
  | Some func => inr func
  end.

End Registry.


(** * Vocabulary of the statements *)

(** The scan as a fold over the lines still to read. *)
Definition scan (lines : list pystr) (st : state) : state :=
  fold_left (fun st raw => on_line (strip raw) st) lines st.

(** A stripped line opens a record: it passes the noise guard, and it has the
    SKU and a currency marker. *)
Definition opens_record (line : pystr) : bool :=
  negb (is_noise line)
  && match sku_with_price line with Some _ => true | None => false end.

(** Leading run of decimal digits of a line. *)
Definition leading_digits (line : pystr) : pystr := takeWhile isdecimal line.

(** The state a noise line leaves. *)
Definition after_noise (st : state) : state :=
  {| st_i := S (st_i st); st_name_buffer := [];
     st_in_continuation := false; st_rows := st_rows st |}.

(** The characters of [isspace], one by one. *)
Definition space_chars : list char :=
  [0x9; 0xa; 0xb; 0xc; 0xd; 0x1c; 0x1d; 0x1e; 0x1f; 0x20; 0x85; 0xa0; 0x1680;
   0x2000; 0x2001; 0x2002; 0x2003; 0x2004; 0x2005; 0x2006; 0x2007; 0x2008;
   0x2009; 0x200a; 0x2028; 0x2029; 0x202f; 0x205f; 0x3000].

(** The characters of [numpunct], one by one. *)
Definition numpunct_chars : list char :=
  [0x30; 0x31; 0x32; 0x33; 0x34; 0x35; 0x36; 0x37; 0x38; 0x39; 0x2e; 0x2c].

(** [s] does not begin with a character of the class [p]. *)
Definition head_fails (p : char -> bool) (s : pystr) : Prop :=
  match s with
  | [] => True
  | c :: _ => p c = false
  end.

(** [w] spells [word] up to case. *)
Definition spells (word w : pystr) : Prop :=
  Forall2 (fun l c => ignorecase l c = true) word w.

(** [m] is an occurrence of the price pattern with amount [amt]: the currency
    marker, the amount, a plus sign and the word [iva] in any case, with
    optional blanks between them. *)
Definition price_iva (m amt : pystr) : Prop :=
  exists ws1 ws2 ws3 w,
    m = dollar :: ws1 ++ amt ++ ws2 ++ plus_sign :: ws3 ++ w
    /\ forallb isspace ws1 = true
    /\ amt <> [] /\ forallb numpunct amt = true
    /\ forallb isspace ws2 = true
    /\ forallb isspace ws3 = true
    /\ spells (str "iva") w.

(** The amounts of the occurrences of the price pattern in a text, leftmost
    first, each search resuming where the previous occurrence ends. *)
Inductive price_occurrences : pystr -> list pystr -> Prop :=
| occ_none text :
    (forall a m amt b, text = a ++ m ++ b -> ~ price_iva m amt) ->
    price_occurrences text []
| occ_first a m amt b amts :
    price_iva m amt ->
    (forall a' m' amt' b',
        a ++ m ++ b = a' ++ m' ++ b' -> price_iva m' amt' ->
        (length a <= length a')%nat) ->
    price_occurrences b amts ->
    price_occurrences (a ++ m ++ b) (amt :: amts).

(** A line of the shape of the SKU pattern: six digits, blanks, and a text
    without line break up to the end of the line (or up to a final line
    break). *)
Definition sku_shape (line digits text : pystr) : Prop :=
  exists w ws tail,
    line = digits ++ (w :: ws) ++ text ++ tail
    /\ length digits = 6%nat /\ forallb isdecimal digits = true
    /\ forallb isspace (w :: ws) = true
    /\ text <> [] /\ forallb anychar text = true
    /\ (tail = [] \/ tail = [newline]).

(** A price tier read as the matched text itself: the texts the pattern
    matches, whole ([m.group(0)] of every match), leftmost first. *)
Fixpoint matched_texts_from (len0 : nat) (re : regex) (skip : nat)
         (s : pystr) : list pystr :=
  match skip with
  | S skip' =>
      match s with
      | [] => []
      | _ :: t => matched_texts_from len0 re skip' t
      end
  | O =>
      match exec len0 re st0 s with
      | Some r =>
          firstn (consumed s r) s
          :: match s with
             | [] => []
             | _ :: t => matched_texts_from len0 re (pred (consumed s r)) t
             end
      | None =>
          match s with
          | [] => []
          | _ :: t => matched_texts_from len0 re 0 t
          end
      end
  end.

(** The whole texts the price pattern matches in a line. *)
Definition matched_price_texts (line : pystr) : list pystr :=
  matched_texts_from (length line) PRICE_IVA_RE 0 line.

(** The first numeric token of a text: the longest run of digits, points and
    commas that starts at the first such character. *)
Definition first_numeric_token (text : pystr) : option pystr :=
  match dropWhile (fun c => negb (numpunct c)) text with
  | [] => None
  | c :: t => Some (takeWhile numpunct (c :: t))
  end.

(** The separator rule, in the words of the specification. *)
Definition separator_rule (raw : pystr) : pystr :=
  let has (c : char) := existsb (fun x : char => x =? c) raw in
  let comma_to_point := map (fun c : char => if c =? comma then dot else c) in
  if has dot && has comma then
    comma_to_point (filter (fun c : char => negb (c =? dot)) raw)
  else if has comma then comma_to_point raw
  else raw.

(** [m] is an occurrence of the units pattern: an optional plus sign, a run
    of decimal digits, optional blanks and the word [UNIDADES] in any
    case. *)
Definition units_marker (m sign digits : pystr) : Prop :=
  exists ws w,
    m = sign ++ digits ++ ws ++ w
    /\ (sign = [] \/ sign = [plus_sign])
    /\ digits <> [] /\ forallb isdecimal digits = true
    /\ forallb isspace ws = true
    /\ spells (str "UNIDADES") w.

(** What [re.sub(r"\s+", " ", s)] leaves: every run of blanks becomes one
    space; [after_blank] tells that the run has begun. *)
Fixpoint collapse (after_blank : bool) (s : pystr) : pystr :=
  match s with
  | [] => []
  | c :: t =>
      if isspace c then
        if after_blank then collapse true t else blank :: collapse true t
      else c :: collapse false t
  end.

(** No blank but single spaces between other characters; [after_blank] tells
    that the character before is a blank (or that there is none). *)
Fixpoint tidy_from (after_blank : bool) (s : pystr) : bool :=
  match s with
  | [] => negb after_blank
  | c :: t =>
      if isspace c then negb after_blank && (c =? blank) && tidy_from true t
      else tidy_from false t
  end.

(** A cleaned name: empty, or words with single spaces between them. *)
Definition tidy (s : pystr) : bool := isnil s || tidy_from true s.

(** The last character is a blank; [b] stands for the character before. *)
Fixpoint last_blank (b : bool) (s : pystr) : bool :=
  match s with
  | [] => b
  | c :: t => last_blank (isspace c) t
  end.

(** The state of the scan with the given name buffer and continuation flag,
    before any line and any row. *)
Definition mode_state (buffer : list pystr) (cont : bool) : state :=
  {| st_i := 0; st_name_buffer := buffer; st_in_continuation := cont;
     st_rows := [] |}.

(** The rows the scan emits for [lines] when it starts with the given name
    buffer and continuation flag. *)
Definition rows_from (buffer : list pystr) (cont : bool)
           (lines : list pystr) : list row :=
  st_rows (scan lines (mode_state buffer cont)).

(** [rest_of_line.split("$")[0].strip()] *)
Definition before_price (rest_of_line : pystr) : pystr :=
  strip (hd [] (split dollar rest_of_line)).

(** The fragment an opening line adds to the name: the text before the
    first currency marker, unless it is empty. *)
Definition name_tail (rest_of_line : pystr) : list pystr :=
  if isnil (before_price rest_of_line) then []
  else [before_price rest_of_line].

(** A stripped line starts with a product keyword. *)
Definition starts_with_keyword (line : pystr) : bool :=
  existsb (fun keyword => startswith keyword line) product_keywords.

(** A stripped line the scan takes as a fragment of the next name when it
    is not in continuation mode: no noise, no SKU with prices, no currency
    marker. *)
Definition name_line (line : pystr) : bool :=
  negb (is_noise line)
  && negb (opens_record line)
  && negb (contains [dollar] line).

(** A stripped line the scan drops in continuation mode: no noise, no SKU
    with prices, no product keyword in front. *)
Definition dropped_after_record (line : pystr) : bool :=
  negb (is_noise line)
  && negb (opens_record line)
  && negb (starts_with_keyword line).

(** A price tier of a row: empty, or the currency marker and an amount of
    digits, points and commas that the price normalizer reads back. *)
Definition tier_of_amount (tier : pystr) : Prop :=
  tier = []
  \/ exists amt,
       tier = dollar :: amt /\ amt <> [] /\ forallb numpunct amt = true
       /\ _parse_price_to_float tier = py_float (separator_rule amt).


(** A line as the reconstructor gets it from the pages: not empty, without
    blank at either end, without line break. *)
Definition trimmed_line (line : pystr) : Prop :=
  line <> [] /\ strip line = line
  /\ forallb (fun c => negb (islinebreak c)) line = true.

(** The digits of the integer part of an amount, its points left out. *)
Definition without_points (ip : pystr) : pystr :=
  filter (fun c : char => negb (c =? dot)) ip.

(** * Properties *)

(** ** The tests of the repository, run on the model *)

Example test_parse_price_sin_simbolo_dolar :
  _parse_price_to_float (str "1.234,56") = Some 1234.56%Q.
Proof. vm_compute. reflexivity. Qed.

Example test_parse_price_con_espacios :
  _parse_price_to_float (str "$ 1.234,56") = Some 1234.56%Q.
Proof. vm_compute. reflexivity. Qed.

Example test_parse_price_formato_invalido :
  _parse_price_to_float (str "abc.def,ghi") = None.
Proof. vm_compute. reflexivity. Qed.

Example test_cleanup_name_espacios_multiples :
  _cleanup_name (Some (str "Notebook    HP     ProBook"))
  = str "Notebook HP ProBook".
Proof. vm_compute. reflexivity. Qed.

Example test_cleanup_name_saltos_de_linea :
  _cleanup_name (Some (str "Notebook" ++ [newline] ++ str "HP" ++ [newline]
                       ++ str "ProBook"))
  = str "Notebook HP ProBook".
Proof. vm_compute. reflexivity. Qed.

Example test_extract_simple_row :
  _extract_rows_from_text
    [str "Notebook HP ProBook 450 G8";
     str "Core i5 8GB RAM";
     str "123456 Descripci" ++ [0xf3] ++ str "n Adicional $1.200,00 + iva $1.150,00 + iva $1.100,00 + iva 50 UNIDADES"]
  = [{| sku := str "123456";
        name := str "Notebook HP ProBook 450 G8 Core i5 8GB RAM Descripci"
                ++ [0xf3] ++ str "n Adicional";
        x1 := str "$1.200,00"; x3 := str "$1.150,00"; x6 := str "$1.100,00";
        stock_text := str "123456 Descripci" ++ [0xf3] ++ str "n Adicional $1.200,00 + iva $1.150,00 + iva $1.100,00 + iva 50 UNIDADES";
        eta_text := str "123456 Descripci" ++ [0xf3] ++ str "n Adicional $1.200,00 + iva $1.150,00 + iva $1.100,00 + iva 50 UNIDADES" |}].
Proof. vm_compute. reflexivity. Qed.

Example test_extract_multiple_rows :
  map sku
      (_extract_rows_from_text
         [str "Laptop Producto A";
          str "123456 Extra $100,00 + iva $95,00 + iva $90,00 + iva 10 UNIDADES";
          str "Descripcion tecnica del producto A";
          str "Monitor Producto B";
          str "678901 Extra $200,00 + iva $190,00 + iva $180,00 + iva 20 UNIDADES"])
  = [str "123456"; str "678901"].
Proof. vm_compute. reflexivity. Qed.

Example test_extract_skips_headers :
  map sku
      (_extract_rows_from_text
         [str "SKU IDC"; str "NOMBRE DEL PRODUCTO"; str "Laptop Producto A";
          str "123456 Extra $100,00 + iva $95,00 + iva $90,00 + iva 10 UNIDADES"])
  = [str "123456"].
Proof. vm_compute. reflexivity. Qed.

Example test_extract_sku_5_digitos :
  map sku
      (_extract_rows_from_text
         [str "Laptop Producto Test";
          str "098765 Extra $100,00 + iva $95,00 + iva $90,00 + iva 10 UNIDADES"])
  = [str "098765"].
Proof. vm_compute. reflexivity. Qed.

Example test_extract_ignores_invalid_sku :
  map sku
      (_extract_rows_from_text
         [str "Laptop Producto A";
          str "12345 Extra $100,00 + iva $95,00 + iva $90,00 + iva 10 UNIDADES";
          str "Monitor Producto B";
          str "123456 Extra $100,00 + iva $95,00 + iva $90,00 + iva 10 UNIDADES"])
  = [str "123456"].
Proof. vm_compute. reflexivity. Qed.

Example test_extract_skips_footer_text :
  length
    (_extract_rows_from_text
       [str "Laptop Producto A";
        str "123456 Extra $100,00 + iva $95,00 + iva $90,00 + iva 10 UNIDADES";
        str "FORMAS DE PAGO: Efectivo, Tarjeta"])
  = 1%nat.
Proof. vm_compute. reflexivity. Qed.

Example test_ingest_pdf_completo :
  ingest_idc_pdf (fun path => path) CANONICAL_COLUMNS
    [Some (str "SKU IDC
NOMBRE DEL PRODUCTO
Laptop Notebook HP ProBook 450 G8
Core i5 8GB RAM 256GB SSD
123456 Extra Specs $1.200,00 + iva $1.150,00 + iva $1.100,00 + iva 50 UNIDADES En stock
Tecnical details line
Monitor Mouse Logitech MX Master 3
678901 Wireless $150,50 + iva $145,00 + iva $140,00 + iva +100 UNIDADES
")]
    (str "test.pdf") (str "IDC")
  = Some
      {| columns := CANONICAL_COLUMNS;
         data :=
           [[VStr (str "IDC"); VStr (str "123456");
             VStr (str "Laptop Notebook HP ProBook 450 G8 Core i5 8GB RAM 256GB SSD Extra Specs");
             VNone; VNone; VNone; VNone; VNone;
             VFloat 1200.00; VFloat 1150.00; VFloat 1100.00;
             VStr (str "no"); VInt 50;
             VStr (str "123456 Extra Specs $1.200,00 + iva $1.150,00 + iva $1.100,00 + iva 50 UNIDADES En stock");
             VStr (str "test.pdf")];
            [VStr (str "IDC"); VStr (str "678901");
             VStr (str "Monitor Mouse Logitech MX Master 3 Wireless");
             VNone; VNone; VNone; VNone; VNone;
             VFloat 150.50; VFloat 145.00; VFloat 140.00;
             VStr (str "no"); VInt 100;
             VStr (str "678901 Wireless $150,50 + iva $145,00 + iva $140,00 + iva +100 UNIDADES");
             VStr (str "test.pdf")]] |}.
Proof. vm_compute. reflexivity. Qed.

Example test_ingest_pdf_vacio :
  ingest_idc_pdf (fun path => path) CANONICAL_COLUMNS
    [Some (str "Sin datos v" ++ [0xe1] ++ str "lidos")]
    (str "empty.pdf") (str "IDC")
  = Some {| columns := CANONICAL_COLUMNS; data := [] |}.
Proof. vm_compute. reflexivity. Qed.

Example test_proveedor_no_existente_lanza_error :
  get_provider nat (fun key => str "'" ++ key ++ str "'")
    (fst (register nat (str "tecnomega") 2%nat
            (fst (register nat (str "idc") 1%nat []))))
    (str "proveedor_inexistente")
  = inl (ValueError
           (str "Proveedor no registrado: proveedor_inexistente. Disponibles: ['idc', 'tecnomega']")).
Proof. vm_compute. reflexivity. Qed.

(** ** Termination of the scan *)

Lemma on_line_advances line st : st_i (on_line line st) = S (st_i st).
Proof.
  unfold on_line, open_record.
  destruct (is_noise line); [reflexivity|].
  destruct (sku_with_price line); [reflexivity|].
  destruct (st_in_continuation st);
    repeat match goal with |- context [if ?b then _ else _] => destruct b end;
    reflexivity.
Qed.

Lemma loop_body_advances lines st :
  (st_i st < length lines)%nat ->
  exists st', loop_body lines st = Some st' /\ st_i st' = S (st_i st).
Proof.
  intros Hlt. unfold loop_body.
  destruct (nth_error lines (st_i st)) as [raw|] eqn:E.
  - eexists; split; [reflexivity|]. apply on_line_advances.
  - apply nth_error_None in E. lia.
Qed.

Lemma while_loop_scan rest : forall seen st fuel,
  st_i st = length seen -> (length rest <= fuel)%nat ->
  while_loop fuel (seen ++ rest) st = Returned (st_rows (scan rest st)).
Proof.
  induction rest as [|raw rest IH]; intros seen st fuel Hi Hfuel.
  - rewrite app_nil_r.
    destruct fuel; simpl; rewrite Hi, Nat.ltb_irrefl; reflexivity.
  - destruct fuel as [|fuel]; [simpl in Hfuel; lia|].
    simpl while_loop.
    replace (Nat.ltb (st_i st) (length (seen ++ raw :: rest))) with true.
    2:{ symmetry. apply Nat.ltb_lt. rewrite length_app. simpl. lia. }
    unfold loop_body. rewrite Hi, nth_error_app2, Nat.sub_diag by lia.
    simpl nth_error. cbv iota beta.
    replace (seen ++ raw :: rest) with ((seen ++ [raw]) ++ rest)
      by (rewrite <- app_assoc; reflexivity).
    rewrite IH.
    + reflexivity.
    + rewrite on_line_advances, length_app, Hi. simpl. lia.
    + simpl in Hfuel. lia.
Qed.

Lemma while_loop_out_of_fuel fuel : forall lines st,
  (st_i st <= length lines)%nat ->
  (fuel < length lines - st_i st)%nat ->
  while_loop fuel lines st = OutOfFuel.
Proof.
  induction fuel as [|fuel IH]; intros lines st Hle Hlt.
  - simpl. replace (Nat.ltb (st_i st) (length lines)) with true; [reflexivity|].
    symmetry. apply Nat.ltb_lt. lia.
  - simpl. replace (Nat.ltb (st_i st) (length lines)) with true.
    2:{ symmetry. apply Nat.ltb_lt. lia. }
    destruct (loop_body_advances lines st) as (st' & E & Hi); [lia|].
    rewrite E. apply IH; lia.
Qed.

Lemma extract_rows_fuel lines fuel :
  (length lines <= fuel)%nat ->
  _extract_rows_from_text_fuel fuel lines
  = Returned (st_rows (scan lines init_state)).
Proof.
  intros H. unfold _extract_rows_from_text_fuel.
  apply (while_loop_scan lines [] init_state fuel); [reflexivity|exact H].
Qed.

Lemma extract_rows_scan lines :
  _extract_rows_from_text lines = st_rows (scan lines init_state).
Proof.
  unfold _extract_rows_from_text.
  rewrite extract_rows_fuel by lia. reflexivity.
Qed.

(** C10: the scan over [n] lines returns after exactly [n] iterations: every
    branch of the body advances the index by one, fuel [n] (and any more)
    makes the loop return its rows, and any less leaves it running. *)
Theorem scan_terminates_after_n_iterations (lines : list pystr) :
  (forall line st, st_i (on_line line st) = S (st_i st))
  /\ (forall st, (st_i st < length lines)%nat ->
        exists st', loop_body lines st = Some st' /\ st_i st' = S (st_i st))
  /\ (forall fuel, (length lines <= fuel)%nat ->
        _extract_rows_from_text_fuel fuel lines
        = Returned (_extract_rows_from_text lines))
  /\ (forall fuel, (fuel < length lines)%nat ->
        _extract_rows_from_text_fuel fuel lines = OutOfFuel).
Proof.
  split; [exact on_line_advances|].
  split; [exact (loop_body_advances lines)|].
  split.
  - intros fuel H. rewrite extract_rows_scan. apply extract_rows_fuel, H.
  - intros fuel H. apply while_loop_out_of_fuel; simpl; lia.
Qed.

(** ** The rows the scan emits *)

Lemma open_record_rows line m st :
  exists r,
    st_rows (open_record line m st) = st_rows st ++ [r]
    /\ sku r = group m 1
    /\ stock_text r = line /\ eta_text r = line
    /\ x1 r = price_at (_extract_prices_from_line line) 0
    /\ x3 r = price_at (_extract_prices_from_line line) 1
    /\ x6 r = price_at (_extract_prices_from_line line) 2.
Proof.
  eexists. split; [reflexivity|]. simpl. repeat split; reflexivity.
Qed.

Lemma on_line_not_opening line st :
  opens_record line = false -> st_rows (on_line line st) = st_rows st.
Proof.
  unfold opens_record, on_line. intros H.
  destruct (is_noise line); [reflexivity|].
  destruct (sku_with_price line); [discriminate H|].
  destruct (st_in_continuation st);
    repeat match goal with |- context [if ?b then _ else _] => destruct b end;
    reflexivity.
Qed.

Lemma on_line_opening line st :
  opens_record line = true ->
  exists m, sku_with_price line = Some m
            /\ on_line line st = open_record line m st.
Proof.
  unfold opens_record, on_line. intros H.
  destruct (is_noise line); [discriminate H|].
  destruct (sku_with_price line) as [m|]; [|discriminate H].
  exists m. split; reflexivity.
Qed.

Lemma scan_app a b st : scan (a ++ b) st = scan b (scan a st).
Proof. unfold scan. apply fold_left_app. Qed.

(** Any field of a row that the opening line alone decides is, over the whole
    scan, that function mapped over the opening lines. *)
Lemma scan_rows_by_line {A : Type} (f : row -> A) (g : pystr -> A) :
  (forall line m st r,
      sku_with_price line = Some m ->
      st_rows (open_record line m st) = st_rows st ++ [r] ->
      f r = g line) ->
  forall lines st,
    map f (st_rows (scan lines st))
    = map f (st_rows st) ++ map g (filter opens_record (map strip lines)).
Proof.
  intros Hfg. induction lines as [|raw lines IH]; intros st.
  - simpl. rewrite app_nil_r. reflexivity.
  - change (scan (raw :: lines) st) with (scan lines (on_line (strip raw) st)).
    rewrite IH. simpl map. simpl filter.
    destruct (opens_record (strip raw)) eqn:E.
    + destruct (on_line_opening _ st E) as (m & Hm & ->).
      destruct (open_record_rows (strip raw) m st) as (r & Hr & _).
      rewrite Hr, map_app, <- app_assoc. simpl.
      rewrite (Hfg _ _ _ _ Hm Hr). reflexivity.
    + rewrite on_line_not_opening by exact E. reflexivity.
Qed.

Lemma rows_by_line {A : Type} (f : row -> A) (g : pystr -> A) :
  (forall line m st r,
      sku_with_price line = Some m ->
      st_rows (open_record line m st) = st_rows st ++ [r] ->
      f r = g line) ->
  forall lines,
    map f (_extract_rows_from_text lines)
    = map g (filter opens_record (map strip lines)).
Proof.
  intros H lines. rewrite extract_rows_scan.
  rewrite (scan_rows_by_line f g H). reflexivity.
Qed.

Lemma open_record_last line m st r :
  st_rows (open_record line m st) = st_rows st ++ [r] ->
  sku r = group m 1
  /\ stock_text r = line /\ eta_text r = line
  /\ x1 r = price_at (_extract_prices_from_line line) 0
  /\ x3 r = price_at (_extract_prices_from_line line) 1
  /\ x6 r = price_at (_extract_prices_from_line line) 2.
Proof.
  destruct (open_record_rows line m st) as (r' & Hr & H).
  intros Hr'. rewrite Hr in Hr'. apply app_inj_tail in Hr'.
  destruct Hr' as [_ ->]. exact H.
Qed.

(** C4: the stock texts of the emitted rows, and their ETA texts, are both
    the list of the stripped record-opening lines, in order: each row carries
    its full line in both fields. *)
Theorem stock_and_eta_are_the_full_line (lines : list pystr) :
  map stock_text (_extract_rows_from_text lines)
  = filter opens_record (map strip lines)
  /\ map eta_text (_extract_rows_from_text lines)
     = filter opens_record (map strip lines)
  /\ Forall (fun r => stock_text r = eta_text r)
            (_extract_rows_from_text lines).
Proof.
  assert (Hs : map stock_text (_extract_rows_from_text lines)
               = filter opens_record (map strip lines)).
  { rewrite (rows_by_line stock_text (fun l => l)).
    - apply map_id.
    - intros line m st r _ Hr. apply (open_record_last line m st r Hr). }
  assert (He : map eta_text (_extract_rows_from_text lines)
               = filter opens_record (map strip lines)).
  { rewrite (rows_by_line eta_text (fun l => l)).
    - apply map_id.
    - intros line m st r _ Hr. apply (open_record_last line m st r Hr). }
  split; [exact Hs|]. split; [exact He|].
  rewrite <- He in Hs. clear He.
  induction (_extract_rows_from_text lines) as [|r rows IH]; constructor.
  - simpl in Hs. congruence.
  - apply IH. simpl in Hs. congruence.
Qed.

(** ** Noise lines *)

Lemma on_line_noise line st :
  is_noise line = true -> on_line line st = after_noise st.
Proof. intros H. unfold on_line. rewrite H. reflexivity. Qed.

Lemma on_line_buffer line st :
  Forall (fun frag => frag = line /\ is_noise line = false
                      \/ In frag (st_name_buffer st))
         (st_name_buffer (on_line line st)).
Proof.
  unfold on_line, open_record.
  destruct (is_noise line) eqn:En; [constructor|].
  destruct (sku_with_price line); [constructor|].
  assert (Hkeep : Forall (fun frag => frag = line /\ false = false
                                      \/ In frag (st_name_buffer st))
                         (st_name_buffer st)).
  { apply Forall_forall. intros x Hx. right. exact Hx. }
  assert (Hpush : Forall (fun frag => frag = line /\ false = false
                                      \/ In frag (st_name_buffer st))
                         (st_name_buffer st ++ [line])).
  { apply Forall_app. split; [exact Hkeep|].
    constructor; [left; split; reflexivity|constructor]. }
  destruct (st_in_continuation st);
    repeat match goal with |- context [if ?b then _ else _] => destruct b end;
    simpl; assumption.
Qed.

Lemma scan_buffer lines : forall st,
  Forall (fun frag => (In frag (map strip lines) /\ is_noise frag = false)
                      \/ In frag (st_name_buffer st))
         (st_name_buffer (scan lines st)).
Proof.
  induction lines as [|raw lines IH]; intros st.
  - apply Forall_forall. intros x Hx. right. exact Hx.
  - change (scan (raw :: lines) st) with (scan lines (on_line (strip raw) st)).
    eapply Forall_impl; [|apply IH].
    intros frag [[Hin Hn]|Hin].
    + left. split; [right; exact Hin|exact Hn].
    + pose proof (on_line_buffer (strip raw) st) as Hb.
      rewrite Forall_forall in Hb. destruct (Hb _ Hin) as [[-> Hn]|Hold].
      * left. split; [left; reflexivity|exact Hn].
      * right. exact Hold.
Qed.

(** C3: a noise line leaves the rows as they are, empties the name buffer and
    ends continuation mode; the fragments of the name buffer are stripped
    lines that are not noise, after any number of lines; and the rows of a
    scan do not depend on what a noise line says. *)
Theorem noise_lines_reset_and_never_name (lines : list pystr) :
  (forall line st, is_noise line = true ->
      on_line line st
      = {| st_i := S (st_i st); st_name_buffer := [];
           st_in_continuation := false; st_rows := st_rows st |})
  /\ Forall (fun frag => In frag (map strip lines) /\ is_noise frag = false)
            (st_name_buffer (scan lines init_state))
  /\ (forall before noise noise' after,
        lines = before ++ noise :: after ->
        is_noise (strip noise) = true ->
        is_noise (strip noise') = true ->
        _extract_rows_from_text (before ++ noise' :: after)
        = _extract_rows_from_text lines).
Proof.
  split; [exact on_line_noise|]. split.
  - eapply Forall_impl; [|apply scan_buffer].
    intros frag [H|H]; [exact H|destruct H].
  - intros before noise noise' after -> Hn Hn'.
    rewrite !extract_rows_scan, !scan_app.
    change (scan (noise' :: after) ?st)
      with (scan after (on_line (strip noise') st)).
    change (scan (noise :: after) ?st)
      with (scan after (on_line (strip noise) st)).
    rewrite !on_line_noise by assumption. reflexivity.
Qed.

(** ** Character classes *)

Ltac to_prop H :=
  repeat first
    [ rewrite orb_true_iff in H | rewrite andb_true_iff in H
    | rewrite N.eqb_eq in H | rewrite N.leb_le in H ].

(** Two classes are disjoint when one of them is a short list of characters,
    none of which is in the other. *)
Lemma disjoint_by_enum (p q : char -> bool) (l : list char) :
  (forall c, p c = true -> In c l) ->
  forallb (fun c => negb (q c)) l = true ->
  forall c, p c = true -> q c = false.
Proof.
  intros Henum Hall c Hp.
  rewrite forallb_forall in Hall.
  apply negb_true_iff, Hall, Henum, Hp.
Qed.

Lemma disjoint_sym (p q : char -> bool) :
  (forall c, p c = true -> q c = false) ->
  forall c, q c = true -> p c = false.
Proof.
  intros H c Hq. destruct (p c) eqn:E; [|reflexivity].
  rewrite (H c E) in Hq. discriminate Hq.
Qed.

Lemma isspace_enum c : isspace c = true -> In c space_chars.
Proof.
  intros H. cbv [isspace in_range] in H. to_prop H.
  cbv [space_chars In]. lia.
Qed.

Lemma numpunct_enum c : numpunct c = true -> In c numpunct_chars.
Proof.
  intros H. cbv [numpunct in_range dot comma] in H. to_prop H.
  cbv [numpunct_chars In]. lia.
Qed.

Lemma lit_enum l c : lit l c = true -> In c [l].
Proof. unfold lit. rewrite N.eqb_eq. intros ->. left. reflexivity. Qed.

Lemma space_not_numpunct c : isspace c = true -> numpunct c = false.
Proof. apply (disjoint_by_enum _ _ _ isspace_enum). reflexivity. Qed.

Lemma numpunct_not_space c : numpunct c = true -> isspace c = false.
Proof. apply (disjoint_by_enum _ _ _ numpunct_enum). reflexivity. Qed.

Lemma numpunct_not_plus c : numpunct c = true -> lit plus_sign c = false.
Proof. apply (disjoint_by_enum _ _ _ numpunct_enum). reflexivity. Qed.

Lemma numpunct_not_dollar c : numpunct c = true -> lit dollar c = false.
Proof. apply (disjoint_by_enum _ _ _ numpunct_enum). reflexivity. Qed.

Lemma space_not_plus c : isspace c = true -> lit plus_sign c = false.
Proof. apply (disjoint_by_enum _ _ _ isspace_enum). reflexivity. Qed.

Lemma space_not_dollar c : isspace c = true -> lit dollar c = false.
Proof. apply (disjoint_by_enum _ _ _ isspace_enum). reflexivity. Qed.

Lemma plus_not_decimal c : lit plus_sign c = true -> isdecimal c = false.
Proof. apply (disjoint_by_enum _ _ _ (lit_enum plus_sign)). reflexivity. Qed.

Lemma dollar_not_space c : lit dollar c = true -> isspace c = false.
Proof. apply (disjoint_by_enum _ _ _ (lit_enum dollar)). reflexivity. Qed.

Lemma dollar_not_numpunct c : lit dollar c = true -> numpunct c = false.
Proof. apply (disjoint_by_enum _ _ _ (lit_enum dollar)). reflexivity. Qed.

Lemma space_not_decimal c : isspace c = true -> isdecimal c = false.
Proof.
  apply (disjoint_by_enum _ _ _ isspace_enum). vm_compute. reflexivity.
Qed.

Lemma decimal_not_space c : isdecimal c = true -> isspace c = false.
Proof. apply disjoint_sym, space_not_decimal. Qed.

Lemma decimal_not_plus c : isdecimal c = true -> lit plus_sign c = false.
Proof. apply disjoint_sym, plus_not_decimal. Qed.

Lemma letter_i_enum c :
  ignorecase 0x69 c = true -> In c [0x69; 0x49; 0x130; 0x131].
Proof.
  intros H. cbv [ignorecase in_range] in H. simpl in H. to_prop H.
  cbv [In]. lia.
Qed.

Lemma letter_U_enum c : ignorecase 0x55 c = true -> In c [0x75; 0x55].
Proof.
  intros H. cbv [ignorecase in_range] in H. simpl in H. to_prop H.
  cbv [In]. lia.
Qed.

Lemma space_not_i c : isspace c = true -> ignorecase 0x69 c = false.
Proof.
  apply disjoint_sym, (disjoint_by_enum _ _ _ letter_i_enum). reflexivity.
Qed.

Lemma space_not_U c : isspace c = true -> ignorecase 0x55 c = false.
Proof.
  apply disjoint_sym, (disjoint_by_enum _ _ _ letter_U_enum). reflexivity.
Qed.

Lemma decimal_not_U c : isdecimal c = true -> ignorecase 0x55 c = false.
Proof.
  apply disjoint_sym, (disjoint_by_enum _ _ _ letter_U_enum).
  vm_compute. reflexivity.
Qed.

(** ** Runs of a class *)

Lemma take_drop p s : takeWhile p s ++ dropWhile p s = s.
Proof.
  induction s as [|c t IH]; simpl; [reflexivity|].
  destruct (p c); simpl; [rewrite IH|]; reflexivity.
Qed.

Lemma takeWhile_all p s : forallb p (takeWhile p s) = true.
Proof.
  induction s as [|c t IH]; simpl; [reflexivity|].
  destruct (p c) eqn:E; simpl; [rewrite E, IH|]; reflexivity.
Qed.

Lemma dropWhile_head p s : head_fails p (dropWhile p s).
Proof.
  induction s as [|c t IH]; simpl; [exact I|].
  destruct (p c) eqn:E; [exact IH|exact E].
Qed.

Lemma dropWhile_app p a b :
  forallb p a = true -> head_fails p b -> dropWhile p (a ++ b) = b.
Proof.
  induction a as [|c a IH]; simpl; intros Ha Hb.
  - destruct b as [|x b]; simpl in *; [reflexivity|rewrite Hb; reflexivity].
  - apply andb_prop in Ha. destruct Ha as [-> Ha]. apply IH; assumption.
Qed.

Lemma takeWhile_app p a b :
  forallb p a = true -> head_fails p b -> takeWhile p (a ++ b) = a.
Proof.
  induction a as [|c a IH]; simpl; intros Ha Hb.
  - destruct b as [|x b]; simpl in *; [reflexivity|rewrite Hb; reflexivity].
  - apply andb_prop in Ha. destruct Ha as [-> Ha]. rewrite IH by assumption.
    reflexivity.
Qed.

Lemma firstn_prefix {A : Type} (x y : list A) :
  firstn (length (x ++ y) - length y) (x ++ y) = x.
Proof.
  rewrite length_app, Nat.add_sub.
  rewrite firstn_app, Nat.sub_diag, firstn_all. simpl. apply app_nil_r.
Qed.

(** ** The matcher *)

Lemma greedy_inv p k s r :
  greedy p k s = Some r ->
  exists a b, s = a ++ b /\ forallb p a = true /\ k b = Some r.
Proof.
  revert r. induction s as [|c t IH]; simpl; intros r H.
  - exists [], []. auto.
  - destruct (p c) eqn:E.
    + destruct (greedy p k t) as [r'|] eqn:G.
      * destruct (IH r' eq_refl) as (a & b & -> & Ha & Hk).
        exists (c :: a), b. simpl. rewrite E, Ha. inversion H; subst. auto.
      * exists [], (c :: t). auto.
    + exists [], (c :: t). auto.
Qed.

(** When the rest of the pattern cannot start with a character of the class,
    the repetition takes the whole run. *)
Lemma greedy_disjoint p k s :
  (forall c t, p c = true -> k (c :: t) = None) ->
  greedy p k s = k (dropWhile p s).
Proof.
  intros Hk. induction s as [|c t IH]; simpl; [reflexivity|].
  destruct (p c) eqn:E; [|reflexivity].
  rewrite IH. destruct (k (dropWhile p t)); [reflexivity|].
  apply Hk, E.
Qed.

(** The longest run is tried first. *)
Lemma greedy_longest p k s r :
  k (dropWhile p s) = Some r -> greedy p k s = Some r.
Proof.
  induction s as [|c t IH]; simpl; intros H; [exact H|].
  destruct (p c); [|exact H]. rewrite (IH H). reflexivity.
Qed.

Lemma exactly_inv n p k : forall s r,
  exactly n p k s = Some r ->
  exists a b, s = a ++ b /\ length a = n /\ forallb p a = true
              /\ k b = Some r.
Proof.
  induction n as [|n IH]; simpl; intros s r H.
  - exists [], s. auto.
  - destruct s as [|c t]; [discriminate H|].
    destruct (p c) eqn:E; [|discriminate H].
    destruct (IH t r H) as (a & b & -> & Hl & Ha & Hk).
    exists (c :: a), b. simpl. rewrite E, Ha, Hl. auto.
Qed.

Lemma exec_nocase len0 word : forall st s r,
  exec len0 (nocase word) st s = Some r <->
  exists w, s = w ++ m_rest r /\ spells word w
            /\ m_groups r = rev (closed st).
Proof.
  induction word as [|l word IH]; intros st s r; simpl.
  - split.
    + intros H. inversion H; subst. exists []. simpl. repeat split. constructor.
    + intros (w & -> & Hw & Hg). inversion Hw; subst. simpl.
      destruct r as [g b]. simpl in *. rewrite Hg. reflexivity.
  - split.
    + destruct s as [|c t]; [discriminate|].
      destruct (ignorecase l c) eqn:E; [|discriminate].
      intros H. apply IH in H. destruct H as (w & -> & Hw & Hg).
      exists (c :: w). repeat split; [constructor; assumption|exact Hg].
    + intros (w & -> & Hw & Hg). inversion Hw as [|l' c word' w' Hc Hw']; subst.
      simpl. rewrite Hc. apply IH. exists w'. auto.
Qed.

Lemma exec_nocase_none len0 word st s :
  exec len0 (nocase word) st s = None <->
  forall w b, s = w ++ b -> ~ spells word w.
Proof.
  split.
  - intros H w b -> Hw.
    assert (E : exec len0 (nocase word) st (w ++ b)
                = Some {| m_groups := rev (closed st); m_rest := b |}).
    { apply exec_nocase. exists w. auto. }
    congruence.
  - intros H. destruct (exec len0 (nocase word) st s) as [r|] eqn:E;
      [|reflexivity].
    apply exec_nocase in E. destruct E as (w & -> & Hw & _).
    destruct (H w (m_rest r) eq_refl Hw).
Qed.

(** ** The price pattern of [_extract_prices_from_line] *)

Lemma close_open_run p a t2 :
  close_group (open_group st0 (a :: t2)) (dropWhile p t2)
  = {| opened := []; closed := [a :: takeWhile p t2] |}.
Proof.
  unfold close_group, open_group. cbn [opened closed st0].
  rewrite <- (take_drop p t2) at 1 3.
  change (a :: takeWhile p t2 ++ dropWhile p t2)
    with ((a :: takeWhile p t2) ++ dropWhile p t2).
  rewrite firstn_prefix. reflexivity.
Qed.

Ltac norm_app := repeat (rewrite <- ?app_assoc; progress cbn [app]);
                 rewrite <- ?app_assoc.

Lemma nocase_iva :
  nocase (str "iva")
  = [Chr (ignorecase 0x69); Chr (ignorecase 0x76); Chr (ignorecase 0x61)].
Proof. reflexivity. Qed.

Lemma exec_price_iva_fun len0 s :
  exec len0 PRICE_IVA_RE st0 s
  = match s with
    | c :: t =>
        if lit dollar c then
          match dropWhile isspace t with
          | a :: t2 =>
              if numpunct a then
                match dropWhile isspace (dropWhile numpunct t2) with
                | p :: t4 =>
                    if lit plus_sign p then
                      exec len0 (nocase (str "iva"))
                           {| opened := [];
                              closed := [a :: takeWhile numpunct t2] |}
                           (dropWhile isspace t4)
                    else None
                | [] => None
                end
              else None
          | [] => None
          end
        else None
    | [] => None
    end.
Proof.
  unfold PRICE_IVA_RE. cbn [app].
  destruct s as [|c t]; [reflexivity|].
  cbn [exec].
  destruct (lit dollar c); [|reflexivity].
  rewrite greedy_disjoint.
  2:{ intros x y Hx. rewrite (space_not_numpunct x Hx). reflexivity. }
  destruct (dropWhile isspace t) as [|a t2]; [reflexivity|].
  destruct (numpunct a); [|reflexivity].
  rewrite greedy_disjoint.
  2:{ intros x y Hx. cbn [greedy].
      rewrite (numpunct_not_space x Hx), (numpunct_not_plus x Hx).
      reflexivity. }
  rewrite greedy_disjoint.
  2:{ intros x y Hx. rewrite (space_not_plus x Hx). reflexivity. }
  destruct (dropWhile isspace (dropWhile numpunct t2)) as [|p t4];
    [reflexivity|].
  destruct (lit plus_sign p); [|reflexivity].
  rewrite greedy_disjoint.
  2:{ intros x y Hx. rewrite nocase_iva. cbn [exec].
      rewrite (space_not_i x Hx). reflexivity. }
  rewrite close_open_run. reflexivity.
Qed.

Lemma spells_head_not_space l word w b :
  (forall c, isspace c = true -> ignorecase l c = false) ->
  spells (l :: word) w -> head_fails isspace (w ++ b).
Proof.
  intros Hl Hw. inversion Hw as [|l' c word' w' Hc Hw']; subst. simpl.
  destruct (isspace c) eqn:E; [|reflexivity].
  rewrite (Hl c E) in Hc. discriminate Hc.
Qed.

Lemma exec_price_iva_some len0 s r :
  exec len0 PRICE_IVA_RE st0 s = Some r <->
  exists m amt, s = m ++ m_rest r /\ price_iva m amt /\ m_groups r = [amt].
Proof.
  rewrite exec_price_iva_fun. split.
  - destruct s as [|c t]; [discriminate|].
    destruct (lit dollar c) eqn:Ec; [|discriminate].
    destruct (dropWhile isspace t) as [|a t2] eqn:E1; [discriminate|].
    destruct (numpunct a) eqn:Ea; [|discriminate].
    destruct (dropWhile isspace (dropWhile numpunct t2)) as [|p t4] eqn:E2;
      [discriminate|].
    destruct (lit plus_sign p) eqn:Ep; [|discriminate].
    intros H. apply exec_nocase in H. destruct H as (w & E3 & Hw & Hg).
    exists (dollar :: takeWhile isspace t ++ (a :: takeWhile numpunct t2)
             ++ takeWhile isspace (dropWhile numpunct t2)
             ++ plus_sign :: takeWhile isspace t4 ++ w),
           (a :: takeWhile numpunct t2).
    split; [|split; [|exact Hg]].
    + unfold lit in Ec, Ep. apply N.eqb_eq in Ec, Ep. subst c p.
      rewrite <- (take_drop isspace t) at 1. rewrite E1.
      rewrite <- (take_drop numpunct t2) at 1.
      rewrite <- (take_drop isspace (dropWhile numpunct t2)) at 1.
      rewrite E2. rewrite <- (take_drop isspace t4) at 1. rewrite E3.
      norm_app. reflexivity.
    + exists (takeWhile isspace t), (takeWhile isspace (dropWhile numpunct t2)),
             (takeWhile isspace t4), w.
      repeat split; try apply takeWhile_all; try exact Hw.
      * discriminate.
      * simpl. rewrite Ea. apply takeWhile_all.
  - intros (m & amt & -> & (ws1 & ws2 & ws3 & w & -> & H1 & Hne & Ha & H2
                            & H3 & Hw) & Hg).
    destruct amt as [|a amt]; [destruct Hne; reflexivity|].
    simpl in Ha. apply andb_prop in Ha. destruct Ha as [Ha Hamt].
    cbn [app]. unfold lit at 1. rewrite N.eqb_refl.
    norm_app.
    rewrite (dropWhile_app isspace ws1)
      by (try exact H1; simpl; apply numpunct_not_space, Ha).
    rewrite Ha.
    assert (Hplus : forall x, head_fails numpunct (plus_sign :: x))
      by (intros; reflexivity).
    assert (Hsp : forall x, head_fails isspace (plus_sign :: x))
      by (intros; reflexivity).
    assert (Hd : dropWhile numpunct
                   (amt ++ ws2 ++ plus_sign :: ws3 ++ w ++ m_rest r)
                 = ws2 ++ plus_sign :: ws3 ++ w ++ m_rest r).
    { apply dropWhile_app; [exact Hamt|].
      destruct ws2 as [|x ws2]; [reflexivity|]. simpl in *.
      apply andb_prop in H2. apply space_not_numpunct, H2. }
    assert (Ht : takeWhile numpunct
                   (amt ++ ws2 ++ plus_sign :: ws3 ++ w ++ m_rest r)
                 = amt).
    { apply takeWhile_app; [exact Hamt|].
      destruct ws2 as [|x ws2]; [reflexivity|]. simpl in *.
      apply andb_prop in H2. apply space_not_numpunct, H2. }
    rewrite Hd, Ht.
    rewrite (dropWhile_app isspace ws2) by (try exact H2; reflexivity).
    unfold lit. rewrite N.eqb_refl.
    rewrite (dropWhile_app isspace ws3).
    + apply exec_nocase. exists w. repeat split; [exact Hw|].
      exact Hg.
    + exact H3.
    + apply (spells_head_not_space _ _ _ _ space_not_i Hw).
Qed.

(** ** Successive matches *)

Lemma finditer_skip len0 re : forall n x b,
  length x = n ->
  finditer_from len0 re n (x ++ b) = finditer_from len0 re 0 b.
Proof.
  induction n as [|n IH]; intros x b Hx.
  - destruct x; [reflexivity|discriminate Hx].
  - destruct x as [|c x]; [discriminate Hx|]. simpl. apply IH.
    simpl in Hx. lia.
Qed.

Lemma price_iva_nonempty m amt : price_iva m amt -> exists m', m = dollar :: m'.
Proof. intros (ws1 & ws2 & ws3 & w & -> & _). eexists. reflexivity. Qed.

Lemma exec_price_iva_none len0 s :
  exec len0 PRICE_IVA_RE st0 s = None ->
  forall m amt b, s = m ++ b -> ~ price_iva m amt.
Proof.
  intros H m amt b -> Hm.
  assert (E : exec len0 PRICE_IVA_RE st0 (m ++ b)
              = Some {| m_groups := [amt]; m_rest := b |}).
  { apply exec_price_iva_some. exists m, amt. auto. }
  congruence.
Qed.

Lemma price_occurrences_cons c t amts :
  (forall m amt b, c :: t = m ++ b -> ~ price_iva m amt) ->
  price_occurrences t amts -> price_occurrences (c :: t) amts.
Proof.
  intros Hstart H. inversion H as [text Hno|a m amt b amts' Hm Hleft Hrest];
    subst.
  - apply occ_none. intros a m amt b E.
    destruct a as [|x a]; [exact (Hstart m amt b E)|].
    inversion E; subst. exact (Hno a m amt b eq_refl).
  - change (c :: a ++ m ++ b) with ((c :: a) ++ m ++ b).
    apply occ_first; [exact Hm| |exact Hrest].
    intros a' m' amt' b' E Hm'.
    destruct a' as [|x a'].
    + destruct (Hstart m' amt' b' E Hm').
    + inversion E as [[Ex E']]. simpl.
      apply le_n_S, (Hleft a' m' amt' b' E' Hm').
Qed.

Lemma finditer_price_iva len0 : forall n s,
  (length s <= n)%nat ->
  price_occurrences s
    (map (fun r => group r 1) (finditer_from len0 PRICE_IVA_RE 0 s)).
Proof.
  induction n as [|n IH]; intros s Hn.
  - destruct s; [|simpl in Hn; lia]. simpl.
    apply occ_none. intros a m amt b E Hm.
    destruct (price_iva_nonempty m amt Hm) as (m' & ->).
    destruct a; discriminate E.
  - destruct s as [|c t].
    { apply (IH []). simpl. lia. }
    cbn [finditer_from].
    destruct (exec len0 PRICE_IVA_RE st0 (c :: t)) as [r|] eqn:E.
    + apply exec_price_iva_some in E.
      destruct E as (m & amt & Es & Hm & Hg).
      destruct (price_iva_nonempty m amt Hm) as (m' & ->).
      simpl in Es. injection Es as Ec Et. subst c t.
      unfold consumed. cbn [length]. rewrite length_app.
      replace (pred (S (length m' + length (m_rest r)) - length (m_rest r)))
        with (length m') by lia.
      rewrite finditer_skip by reflexivity.
      cbn [map]. unfold group at 1. rewrite Hg. cbn [pred nth].
      apply (occ_first [] (dollar :: m') amt (m_rest r)).
      * exact Hm.
      * intros. simpl. lia.
      * apply IH. simpl in Hn. rewrite length_app in Hn. lia.
    + apply price_occurrences_cons.
      * apply (exec_price_iva_none len0), E.
      * apply IH. simpl in Hn. lia.
Qed.

Lemma extract_prices_occurrences text :
  exists amts,
    price_occurrences text amts
    /\ _extract_prices_from_line text = map (cons dollar) amts.
Proof.
  exists (map (fun r => group r 1) (re_finditer PRICE_IVA_RE text)). split.
  - apply (finditer_price_iva _ (length text)). lia.
  - unfold _extract_prices_from_line. rewrite map_map. reflexivity.
Qed.

Lemma price_iva_unique m amt b m' amt' b' :
  m ++ b = m' ++ b' -> price_iva m amt -> price_iva m' amt' ->
  m = m' /\ amt = amt' /\ b = b'.
Proof.
  intros E Hm Hm'.
  assert (H : exec 0 PRICE_IVA_RE st0 (m ++ b)
              = Some {| m_groups := [amt]; m_rest := b |})
    by (apply exec_price_iva_some; exists m, amt; auto).
  assert (H' : exec 0 PRICE_IVA_RE st0 (m' ++ b')
               = Some {| m_groups := [amt']; m_rest := b' |})
    by (apply exec_price_iva_some; exists m', amt'; auto).
  rewrite E, H' in H. inversion H; subst.
  split; [|split; reflexivity]. apply (app_inv_tail b). exact E.
Qed.

Lemma app_same_length {A : Type} (a a' b b' : list A) :
  a ++ b = a' ++ b' -> length a = length a' -> a = a' /\ b = b'.
Proof.
  revert a'. induction a as [|x a IH]; intros [|y a'] E Hl;
    try discriminate Hl.
  - split; [reflexivity|exact E].
  - inversion E; subst. simpl in Hl.
    destruct (IH a' H1 (eq_add_S _ _ Hl)) as [-> ->]. split; reflexivity.
Qed.

Lemma price_occurrences_unique text amts :
  price_occurrences text amts ->
  forall amts', price_occurrences text amts' -> amts = amts'.
Proof.
  induction 1 as [text Hno|a m amt b amts Hm Hleft Hrest IH];
    intros amts' H'.
  - inversion H' as [|a' m' amt' b' amts'' Hm' _ _ E]; [reflexivity|].
    destruct (Hno a' m' amt' b' (eq_sym E) Hm').
  - inversion H' as [text' Hno' E|a' m' amt' b' amts'' Hm' Hleft' Hrest' E].
    + destruct (Hno' a m amt b eq_refl Hm).
    + assert (Hl : length a = length a').
      { apply Nat.le_antisymm.
        - apply (Hleft a' m' amt' b' (eq_sym E) Hm').
        - apply (Hleft' a m amt b E Hm). }
      destruct (app_same_length _ _ _ _ E (eq_sym Hl)) as [-> E'].
      destruct (price_iva_unique _ _ _ _ _ _ E' Hm' Hm) as (_ & -> & ->).
      rewrite (IH amts'' Hrest'). reflexivity.
Qed.

Lemma cons_dollar_inj (l l' : list pystr) :
  map (cons dollar) l = map (cons dollar) l' -> l = l'.
Proof.
  revert l'. induction l as [|x l IH]; intros [|y l'] E;
    try discriminate E; [reflexivity|].
  inversion E; subst. rewrite (IH l' H1). reflexivity.
Qed.

Lemma extract_prices_iff text amts :
  price_occurrences text amts
  <-> _extract_prices_from_line text = map (cons dollar) amts.
Proof.
  destruct (extract_prices_occurrences text) as (amts0 & H0 & E0). split.
  - intros H. rewrite E0, (price_occurrences_unique _ _ H0 _ H). reflexivity.
  - intros E. rewrite E0 in E. apply cons_dollar_inj in E. subst. exact H0.
Qed.

Lemma price_at_nth prices k : price_at prices k = nth k prices [].
Proof.
  unfold price_at. destruct (Nat.ltb k (length prices)) eqn:E; [reflexivity|].
  apply Nat.ltb_ge in E. symmetry. apply nth_overflow, E.
Qed.

(** ** The SKU pattern *)

Lemma close_open_prefix st x y :
  close_group (open_group st (x ++ y)) y
  = {| opened := opened st; closed := x :: closed st |}.
Proof.
  unfold close_group, open_group. cbn [opened closed].
  rewrite firstn_prefix. reflexivity.
Qed.

Lemma exactly_app p k a b :
  forallb p a = true -> exactly (length a) p k (a ++ b) = k b.
Proof.
  induction a as [|c a IH]; simpl; intros H; [reflexivity|].
  apply andb_prop in H. destruct H as [-> H]. apply IH, H.
Qed.

Lemma sku_match_inv line m :
  re_match _SKU_INLINE_RE line = Some m ->
  sku_shape line (group m 1) (group m 2).
Proof.
  unfold re_match, _SKU_INLINE_RE. cbn [exec]. rewrite Nat.eqb_refl.
  intros H. apply exactly_inv in H.
  destruct H as (digits & s & -> & Hlen & Hd & H).
  destruct s as [|w t]; [discriminate H|].
  destruct (isspace w) eqn:Ew; [|discriminate H].
  apply greedy_inv in H. destruct H as (ws & s0 & -> & Hws & H).
  destruct s0 as [|c0 t0]; [discriminate H|].
  destruct (anychar c0) eqn:Ec0; [|discriminate H].
  apply greedy_inv in H. destruct H as (tx & s1 & -> & Htx & H).
  rewrite close_open_prefix in H.
  change (c0 :: tx ++ s1) with ((c0 :: tx) ++ s1) in H.
  rewrite close_open_prefix in H. cbn [closed st0 rev app] in H.
  assert (Hm : m = {| m_groups := [digits; c0 :: tx]; m_rest := s1 |}
               /\ (s1 = [] \/ s1 = [newline])).
  { destruct s1 as [|c1 [|c2 s2]].
    - inversion H. auto.
    - destruct (c1 =? newline) eqn:E1; [|discriminate H].
      apply N.eqb_eq in E1. subst c1. inversion H. auto.
    - discriminate H. }
  destruct Hm as [-> Htail]. cbn [group m_groups pred nth].
  exists w, ws, s1.
  split; [norm_app; reflexivity|].
  split; [exact Hlen|]. split; [exact Hd|].
  split; [simpl; rewrite Ew; exact Hws|].
  split; [discriminate|].
  split; [simpl; rewrite Ec0; exact Htx|exact Htail].
Qed.

Lemma sku_shape_leading line digits text :
  sku_shape line digits text -> leading_digits line = digits.
Proof.
  intros (w & ws & tail & -> & _ & Hd & Hw & _).
  unfold leading_digits. apply takeWhile_app; [exact Hd|].
  simpl in *. apply andb_prop in Hw. apply space_not_decimal, Hw.
Qed.

Lemma sku_match_complete digits w ws text :
  length digits = 6%nat -> forallb isdecimal digits = true ->
  forallb isspace (w :: ws) = true ->
  text <> [] -> head_fails isspace text -> forallb anychar text = true ->
  re_match _SKU_INLINE_RE (digits ++ (w :: ws) ++ text)
  = Some {| m_groups := [digits; text]; m_rest := [] |}.
Proof.
  intros Hlen Hd Hw Hne Hhead Htext.
  unfold re_match, _SKU_INLINE_RE. cbn [exec]. rewrite Nat.eqb_refl.
  rewrite <- Hlen, exactly_app by exact Hd.
  cbn [app]. simpl in Hw. apply andb_prop in Hw. destruct Hw as [-> Hws].
  apply greedy_longest. rewrite dropWhile_app by assumption.
  destruct text as [|c0 t0]; [destruct Hne; reflexivity|].
  simpl in Htext. apply andb_prop in Htext. destruct Htext as [-> Ht0].
  apply greedy_longest.
  replace (dropWhile anychar t0) with (@nil char).
  2:{ symmetry. rewrite <- (app_nil_r t0). apply dropWhile_app;
        [exact Ht0|exact I]. }
  change (w :: ws ++ c0 :: t0) with ((w :: ws) ++ c0 :: t0).
  rewrite close_open_prefix.
  rewrite <- (app_nil_r (c0 :: t0)) at 1. rewrite close_open_prefix.
  reflexivity.
Qed.

Lemma contains_char c s : contains [c] s = existsb (fun x => x =? c) s.
Proof.
  induction s as [|x s IH]; [reflexivity|].
  simpl. rewrite andb_true_r, <- IH. reflexivity.
Qed.

Lemma sku_with_price_inv line m :
  sku_with_price line = Some m ->
  sku_shape line (group m 1) (group m 2)
  /\ contains [dollar] line = true.
Proof.
  unfold sku_with_price.
  destruct (re_match _SKU_INLINE_RE line) as [m'|] eqn:E; [|discriminate].
  destruct (contains [dollar] line) eqn:Ed; [|discriminate].
  intros H. inversion H; subst. split; [apply sku_match_inv, E|reflexivity].
Qed.

Lemma six_leading_digits line m :
  sku_with_price line = Some m ->
  leading_digits line = group m 1 /\ length (group m 1) = 6%nat.
Proof.
  intros H. apply sku_with_price_inv in H. destruct H as [H _].
  split; [apply (sku_shape_leading _ _ _ H)|].
  destruct H as (w & ws & tail & _ & Hlen & _). exact Hlen.
Qed.

Lemma not_six_never_opens line :
  length (leading_digits line) <> 6%nat -> opens_record line = false.
Proof.
  intros H. unfold opens_record.
  destruct (sku_with_price line) as [m|] eqn:E; [|apply andb_false_r].
  destruct (six_leading_digits line m E) as [E1 E2].
  rewrite E1 in H. destruct (H E2).
Qed.

Lemma opens_record_six line :
  opens_record line = true -> length (leading_digits line) = 6%nat.
Proof.
  intros H. destruct (Nat.eq_dec (length (leading_digits line)) 6) as [E|E];
    [exact E|].
  rewrite (not_six_never_opens line E) in H. discriminate H.
Qed.

(** C2: a line with SKU and prices is six decimal digits, blanks and a
    further text, the six digits being its whole leading run of digits; a
    line whose leading run of digits has another length, five or seven say,
    adds no row and does not start continuation mode; and the SKUs of the
    emitted rows are the leading digit runs, six digits each, of the
    stripped lines that open a record. *)
Theorem record_opens_only_on_six_digits :
  (forall line m,
      sku_with_price line = Some m ->
      sku_shape line (group m 1) (group m 2)
      /\ leading_digits line = group m 1
      /\ length (leading_digits line) = 6%nat)
  /\ (forall line st,
        length (leading_digits line) <> 6%nat ->
        sku_with_price line = None
        /\ st_rows (on_line line st) = st_rows st
        /\ (st_in_continuation (on_line line st) = true ->
            st_in_continuation st = true))
  /\ (forall lines,
        map sku (_extract_rows_from_text lines)
        = map leading_digits (filter opens_record (map strip lines))
        /\ Forall (fun line => length (leading_digits line) = 6%nat)
                  (filter opens_record (map strip lines))).
Proof.
  split; [|split].
  - intros line m H. split; [apply (sku_with_price_inv line m H)|].
    destruct (six_leading_digits line m H) as [E1 E2].
    split; [exact E1|]. rewrite E1. exact E2.
  - intros line st H.
    assert (Hs : sku_with_price line = None).
    { destruct (sku_with_price line) as [m|] eqn:E; [|reflexivity].
      destruct (six_leading_digits line m E) as [E1 E2].
      rewrite E1 in H. destruct (H E2). }
    split; [exact Hs|]. split.
    + apply on_line_not_opening, not_six_never_opens, H.
    + unfold on_line. rewrite Hs.
      destruct (is_noise line); [discriminate|].
      destruct (st_in_continuation st); [reflexivity|].
      destruct (contains [dollar] line); discriminate.
  - intros lines. split.
    + apply rows_by_line. intros line m st r Hm Hr.
      destruct (open_record_last line m st r Hr) as [-> _].
      symmetry. apply (six_leading_digits line m Hm).
    + apply Forall_forall. intros line Hin.
      apply filter_In in Hin. apply opens_record_six, Hin.
Qed.

Lemma C2_witness :
  length (leading_digits (str "12345 Extra $100,00 + iva")) <> 6%nat
  /\ sku_with_price (str "12345 Extra $100,00 + iva") = None.
Proof.
  assert (H : length (leading_digits (str "12345 Extra $100,00 + iva"))
              <> 6%nat) by (vm_compute; discriminate).
  split; [exact H|].
  exact (proj1 (proj1 (proj2 record_opens_only_on_six_digits)
                      (str "12345 Extra $100,00 + iva") init_state H)).
Defined.

(** ** Price tiers *)

Lemma shape_opens_record digits w ws text :
  length digits = 6%nat -> forallb isdecimal digits = true ->
  forallb isspace (w :: ws) = true ->
  head_fails isspace text -> forallb anychar text = true ->
  existsb (fun c : char => c =? dollar) text = true ->
  is_noise (digits ++ (w :: ws) ++ text) = false ->
  opens_record (digits ++ (w :: ws) ++ text) = true.
Proof.
  intros Hlen Hd Hw Hhead Htext Hdollar Hnoise.
  unfold opens_record, sku_with_price. rewrite Hnoise.
  rewrite sku_match_complete; try assumption.
  - rewrite contains_char, existsb_app. cbn [app existsb].
    unfold pystr, char in *.
    rewrite existsb_app, Hdollar, !orb_true_r. reflexivity.
  - intros ->. discriminate Hdollar.
Qed.

(** C1 (amended): the price tiers of the emitted rows are, row by row, those
    of the stripped lines that open a record (not noise, SKU pattern, a
    currency marker), one row for each such line: tier [k] is the [k]-th
    price of the line, or the empty string; the prices of a line are exactly
    the currency marker followed by the amount, for the occurrences of the
    price pattern taken leftmost first and without overlap; and a line that
    is not noise and reads six digits, blanks, and a text without line break
    holding a currency marker opens a record. *)
Theorem price_tiers_by_position (lines : list pystr) :
  map (fun r => (x1 r, x3 r, x6 r)) (_extract_rows_from_text lines)
  = map (fun line =>
           let prices := _extract_prices_from_line line in
           (nth 0 prices [], nth 1 prices [], nth 2 prices []))
        (filter opens_record (map strip lines))
  /\ (forall line,
        (exists amts, price_occurrences line amts)
        /\ forall amts,
             price_occurrences line amts
             <-> _extract_prices_from_line line = map (cons dollar) amts)
  /\ (forall digits w ws text,
        length digits = 6%nat -> forallb isdecimal digits = true ->
        forallb isspace (w :: ws) = true ->
        head_fails isspace text -> forallb anychar text = true ->
        existsb (fun c : char => c =? dollar) text = true ->
        is_noise (digits ++ (w :: ws) ++ text) = false ->
        opens_record (digits ++ (w :: ws) ++ text) = true).
Proof.
  split; [|split].
  - apply rows_by_line. intros line m st r _ Hr.
    destruct (open_record_last line m st r Hr)
      as (_ & _ & _ & -> & -> & ->).
    cbv zeta. rewrite !price_at_nth. reflexivity.
  - intros line. split; [|exact (extract_prices_iff line)].
    destruct (extract_prices_occurrences line) as (amts & H & _).
    exists amts. exact H.
  - exact shape_opens_record.
Qed.

Lemma C1_witness :
  opens_record (str "123456 Extra $100,00 + iva") = true.
Proof.
  apply (proj2 (proj2 (price_tiers_by_position []))
               (str "123456") 32 [] (str "Extra $100,00 + iva"));
    vm_compute; reflexivity.
Defined.

(** C1 as stated fails on two counts: a line of the record-opening shape
    that holds a header label is noise and gives no row; and a tier is the
    currency marker and the amount, not the whole text the pattern
    matches. *)
Lemma C1_counterexample :
  (sku_with_price (str "123456 SKU IDC $1,00 + iva") <> None
   /\ _extract_rows_from_text [str "123456 SKU IDC $1,00 + iva"] = [])
  /\ (map x1 (_extract_rows_from_text [str "123456 Extra $100,00 + iva"])
      = [str "$100,00"]
      /\ matched_price_texts (str "123456 Extra $100,00 + iva")
         = [str "$100,00 + iva"]).
Proof.
  split; split; try (vm_compute; reflexivity).
  vm_compute. discriminate.
Qed.

(** ** The price normalizer *)

Lemma exec_price_fun len0 s :
  exec len0 _PRICE_RE st0 s
  = match dropWhile isspace
            match s with
            | c :: t => if lit dollar c then t else s
            | [] => []
            end with
    | c1 :: t1 =>
        if numpunct c1 then
          Some {| m_groups := [c1 :: takeWhile numpunct t1];
                  m_rest := dropWhile numpunct t1 |}
        else None
    | [] => None
    end.
Proof.
  unfold _PRICE_RE. cbn [exec].
  set (K := fun s1 : pystr =>
              match s1 with
              | [] => None
              | c :: t =>
                  if numpunct c then
                    greedy numpunct
                      (fun s2 : pystr =>
                         Some {| m_groups :=
                                   rev (closed (close_group
                                                  (open_group st0 s1) s2));
                                 m_rest := s2 |}) t
                  else None
              end).
  assert (HK : forall s1,
             K s1 = match s1 with
                    | c1 :: t1 =>
                        if numpunct c1 then
                          Some {| m_groups := [c1 :: takeWhile numpunct t1];
                                  m_rest := dropWhile numpunct t1 |}
                        else None
                    | [] => None
                    end).
  { intros [|c1 t1]; [reflexivity|]. unfold K.
    destruct (numpunct c1); [|reflexivity].
    apply greedy_longest. rewrite close_open_run. reflexivity. }
  assert (HG : forall s1, greedy isspace K s1 = K (dropWhile isspace s1)).
  { intros s1. apply greedy_disjoint. intros c t Hc. unfold K.
    rewrite (space_not_numpunct c Hc). reflexivity. }
  destruct s as [|c t].
  - rewrite HG, HK. reflexivity.
  - destruct (lit dollar c) eqn:Ec.
    + rewrite !HG, <- HK.
      destruct (K (dropWhile isspace t)); [reflexivity|].
      cbn [dropWhile]. rewrite (dollar_not_space c Ec), HK.
      rewrite (dollar_not_numpunct c Ec). reflexivity.
    + rewrite HG, HK. reflexivity.
Qed.

Lemma forallb_weaken (p q : char -> bool) s :
  (forall c, p c = true -> q c = true) ->
  forallb p s = true -> forallb q s = true.
Proof.
  intros Hpq. induction s as [|c s IH]; simpl; [reflexivity|].
  intros H. apply andb_prop in H. destruct H as [Hc Hs].
  rewrite (Hpq c Hc), (IH Hs). reflexivity.
Qed.

Lemma first_numeric_token_after_blanks t c1 t1 :
  dropWhile isspace t = c1 :: t1 -> numpunct c1 = true ->
  first_numeric_token t = Some (c1 :: takeWhile numpunct t1).
Proof.
  intros E Hc1. unfold first_numeric_token.
  rewrite <- (take_drop isspace t), E.
  rewrite dropWhile_app.
  - cbn [takeWhile]. rewrite Hc1. reflexivity.
  - apply (forallb_weaken isspace); [|apply takeWhile_all].
    intros c Hc. rewrite (space_not_numpunct c Hc). reflexivity.
  - simpl. rewrite Hc1. reflexivity.
Qed.

Lemma search_price len0 s :
  option_map (fun m => group m 1) (search_from len0 _PRICE_RE s)
  = first_numeric_token s.
Proof.
  induction s as [|c t IH].
  - reflexivity.
  - cbn [search_from]. rewrite exec_price_fun.
    destruct (numpunct c) eqn:Ec.
    + assert (Ed : lit dollar c = false) by apply numpunct_not_dollar, Ec.
      rewrite Ed. cbn [dropWhile].
      rewrite (numpunct_not_space c Ec), Ec.
      unfold first_numeric_token. cbn [dropWhile].
      rewrite Ec. cbn [negb takeWhile]. rewrite Ec. reflexivity.
    + assert (Et : first_numeric_token (c :: t) = first_numeric_token t).
      { unfold first_numeric_token. cbn [dropWhile]. rewrite Ec. reflexivity. }
      rewrite Et.
      assert (Hgo : forall c1 t1,
                 dropWhile isspace t = c1 :: t1 ->
                 option_map (fun m => group m 1)
                   (if numpunct c1 then
                      Some {| m_groups := [c1 :: takeWhile numpunct t1];
                              m_rest := dropWhile numpunct t1 |}
                    else None)
                 = (if numpunct c1 then first_numeric_token t else None)).
      { intros c1 t1 E. destruct (numpunct c1) eqn:E1; [|reflexivity].
        rewrite (first_numeric_token_after_blanks t c1 t1 E E1).
        reflexivity. }
      destruct (lit dollar c) eqn:Ed.
      * destruct (dropWhile isspace t) as [|c1 t1] eqn:E; [exact IH|].
        destruct (numpunct c1) eqn:E1; [|exact IH].
        rewrite (first_numeric_token_after_blanks t c1 t1 E E1).
        reflexivity.
      * cbn [dropWhile]. destruct (isspace c) eqn:Es.
        -- destruct (dropWhile isspace t) as [|c1 t1] eqn:E; [exact IH|].
           destruct (numpunct c1) eqn:E1; [|exact IH].
           rewrite (first_numeric_token_after_blanks t c1 t1 E E1).
           reflexivity.
        -- rewrite Ec. exact IH.
Qed.

Lemma forallb_rev (p : char -> bool) s :
  forallb p s = true -> forallb p (rev s) = true.
Proof.
  intros H. rewrite forallb_forall in *. intros x Hx.
  apply H, in_rev, Hx.
Qed.

Lemma lstrip_no_blank (p : char -> bool) s :
  (forall c, p c = true -> isspace c = false) ->
  forallb p s = true -> lstrip s = s.
Proof.
  intros Hp. destruct s as [|c s]; [reflexivity|]. simpl.
  intros H. apply andb_prop in H. destruct H as [Hc _].
  unfold lstrip. simpl. rewrite (Hp c Hc). reflexivity.
Qed.

Lemma strip_no_blank (p : char -> bool) s :
  (forall c, p c = true -> isspace c = false) ->
  forallb p s = true -> strip s = s.
Proof.
  intros Hp H. unfold strip, rstrip.
  rewrite (lstrip_no_blank p s Hp H).
  rewrite (lstrip_no_blank p (rev s) Hp (forallb_rev p s H)).
  apply rev_involutive.
Qed.

Lemma replace_delete old s :
  replace old [] s = filter (fun c : char => negb (c =? old)) s.
Proof.
  unfold replace. induction s as [|c s IH]; [reflexivity|].
  simpl. rewrite IH. destruct (c =? old); reflexivity.
Qed.

Lemma replace_char old new s :
  replace old [new] s = map (fun c : char => if c =? old then new else c) s.
Proof.
  unfold replace. induction s as [|c s IH]; [reflexivity|].
  simpl. rewrite IH. destruct (c =? old); reflexivity.
Qed.

Lemma first_numeric_token_all text raw :
  first_numeric_token text = Some raw -> forallb numpunct raw = true.
Proof.
  unfold first_numeric_token.
  destruct (dropWhile _ text) as [|c t]; [discriminate|].
  intros H. injection H as <-. exact (takeWhile_all numpunct (c :: t)).
Qed.

Lemma parse_price_by_rule text :
  _parse_price_to_float text
  = match first_numeric_token text with
    | Some raw => py_float (separator_rule raw)
    | None => None
    end.
Proof.
  unfold _parse_price_to_float.
  destruct text as [|c0 t0]; [reflexivity|]. cbn [isnil].
  set (text := c0 :: t0).
  pose proof (search_price (length text) text) as Hs.
  fold (re_search _PRICE_RE text) in Hs.
  destruct (re_search _PRICE_RE text) as [m|]; simpl in Hs;
    rewrite <- Hs; [|reflexivity].
  assert (Hall : forallb numpunct (group m 1) = true)
    by (apply (first_numeric_token_all text); symmetry; exact Hs).
  rewrite (strip_no_blank numpunct _ numpunct_not_space Hall).
  unfold separator_rule.
  rewrite !contains_char, replace_delete, !replace_char.
  unfold pystr, char in *.
  destruct (existsb (fun x => x =? comma) (group m 1));
    destruct (existsb (fun x => x =? dot) (group m 1)); reflexivity.
Qed.

Lemma no_numeric_token text :
  forallb (fun c => negb (numpunct c)) text = true ->
  first_numeric_token text = None.
Proof.
  intros H. unfold first_numeric_token.
  rewrite <- (app_nil_r text), dropWhile_app; [reflexivity|exact H|exact I].
Qed.

(** C5: the price normalizer converts the first numeric token of the text
    after the separator rule: with both a point and a comma the points go
    and the commas become the decimal point, with commas only they become
    the decimal point, otherwise the token stays as it is; the four examples
    have the stated values; the empty text and a text without digit, point
    or comma have no value. *)
Theorem price_separator_rule :
  (forall text,
      _parse_price_to_float text
      = match first_numeric_token text with
        | Some raw => py_float (separator_rule raw)
        | None => None
        end)
  /\ _parse_price_to_float (str "$1.398,88 + iva") = Some 1398.88%Q
  /\ _parse_price_to_float (str "$138.22") = Some 138.22%Q
  /\ _parse_price_to_float (str "1398,88") = Some 1398.88%Q
  /\ _parse_price_to_float [] = None
  /\ (forall text,
        forallb (fun c => negb (numpunct c)) text = true ->
        _parse_price_to_float text = None).
Proof.
  split; [exact parse_price_by_rule|].
  repeat (split; [vm_compute; reflexivity|]).
  intros text H. rewrite parse_price_by_rule, (no_numeric_token text H).
  reflexivity.
Qed.

Lemma C5_witness : _parse_price_to_float (str "sin precio") = None.
Proof.
  apply (proj2 (proj2 (proj2 (proj2 (proj2 price_separator_rule))))).
  vm_compute. reflexivity.
Defined.

(** ** The stock normalizer *)

Lemma nocase_UNIDADES :
  nocase (str "UNIDADES") = Chr (ignorecase 0x55) :: nocase (str "NIDADES").
Proof. reflexivity. Qed.

Lemma exec_units_fun len0 s :
  exec len0 _UNITS_RE st0 s
  = match match s with
          | c :: t => if lit plus_sign c then t else s
          | [] => []
          end with
    | d :: t1 =>
        if isdecimal d then
          exec len0 (nocase (str "UNIDADES"))
               (close_group (open_group st0 s) (dropWhile isdecimal t1))
               (dropWhile isspace (dropWhile isdecimal t1))
        else None
    | [] => None
    end.
Proof.
  unfold _UNITS_RE. cbn [app exec].
  pose (K := fun s1 : pystr =>
              match s1 with
              | [] => None
              | c :: t =>
                  if isdecimal c then
                    greedy isdecimal
                      (fun s2 : pystr =>
                         greedy isspace
                           (exec len0 (nocase (str "UNIDADES"))
                                 (close_group (open_group st0 s) s2)) s2) t
                  else None
              end).
  change (match s with
          | [] => K s
          | c :: t =>
              if lit plus_sign c then
                match K t with Some r => Some r | None => K s end
              else K s
          end
          = match match s with
                  | c :: t => if lit plus_sign c then t else s
                  | [] => []
                  end with
            | d :: t1 =>
                if isdecimal d then
                  exec len0 (nocase (str "UNIDADES"))
                       (close_group (open_group st0 s)
                                    (dropWhile isdecimal t1))
                       (dropWhile isspace (dropWhile isdecimal t1))
                else None
            | [] => None
            end).
  assert (HK : forall s1,
             K s1 = match s1 with
                    | d :: t1 =>
                        if isdecimal d then
                          exec len0 (nocase (str "UNIDADES"))
                               (close_group (open_group st0 s)
                                            (dropWhile isdecimal t1))
                               (dropWhile isspace (dropWhile isdecimal t1))
                        else None
                    | [] => None
                    end).
  { intros [|d t1]; [reflexivity|]. unfold K.
    destruct (isdecimal d); [|reflexivity].
    rewrite greedy_disjoint.
    - apply greedy_disjoint. intros c t Hc. rewrite nocase_UNIDADES.
      cbn [exec]. rewrite (space_not_U c Hc). reflexivity.
    - intros c t Hc. cbn [greedy]. rewrite (decimal_not_space c Hc).
      rewrite nocase_UNIDADES. cbn [exec].
      rewrite (decimal_not_U c Hc). reflexivity. }
  destruct s as [|c t].
  - rewrite HK. reflexivity.
  - destruct (lit plus_sign c) eqn:Ec.
    + rewrite <- (HK t). destruct (K t); [reflexivity|].
      rewrite HK, (plus_not_decimal c Ec). reflexivity.
    + rewrite HK. reflexivity.
Qed.

Lemma units_tail_not_decimal ws w b :
  forallb isspace ws = true -> spells (str "UNIDADES") w ->
  head_fails isdecimal (ws ++ w ++ b).
Proof.
  intros Hws Hw. destruct ws as [|x ws].
  - inversion Hw as [|l c word w' Hc Hw']; subst. simpl.
    destruct (isdecimal c) eqn:E; [|reflexivity].
    change (N_of_ascii "U") with 0x55 in Hc.
    rewrite (decimal_not_U c E) in Hc. discriminate Hc.
  - simpl in *. apply andb_prop in Hws. apply space_not_decimal, Hws.
Qed.

Lemma exec_units_some len0 s r :
  exec len0 _UNITS_RE st0 s = Some r <->
  exists m sign digits,
    s = m ++ m_rest r /\ units_marker m sign digits
    /\ m_groups r = [sign ++ digits].
Proof.
  rewrite exec_units_fun. split.
  - assert (Hgo : forall sign d t1,
               s = sign ++ d :: t1 ->
               (sign = [] \/ sign = [plus_sign]) ->
               isdecimal d = true ->
               exec len0 (nocase (str "UNIDADES"))
                    (close_group (open_group st0 s) (dropWhile isdecimal t1))
                    (dropWhile isspace (dropWhile isdecimal t1)) = Some r ->
               exists m sign digits,
                 s = m ++ m_rest r /\ units_marker m sign digits
                 /\ m_groups r = [sign ++ digits]).
    { intros sign d t1 Es Hsign Hd H.
      assert (Es' : s = (sign ++ d :: takeWhile isdecimal t1)
                          ++ dropWhile isdecimal t1).
      { rewrite Es, <- app_assoc. cbn [app]. rewrite take_drop. reflexivity. }
      rewrite Es' in H at 1. rewrite close_open_prefix in H.
      apply exec_nocase in H. destruct H as (w & E3 & Hw & Hg).
      exists (sign ++ (d :: takeWhile isdecimal t1)
                   ++ takeWhile isspace (dropWhile isdecimal t1) ++ w),
             sign, (d :: takeWhile isdecimal t1).
      split; [|split].
      - norm_app. rewrite <- E3, !take_drop. exact Es.
      - exists (takeWhile isspace (dropWhile isdecimal t1)), w.
        split; [reflexivity|]. split; [exact Hsign|].
        split; [discriminate|].
        split; [simpl; rewrite Hd; apply takeWhile_all|].
        split; [apply takeWhile_all|exact Hw].
      - exact Hg. }
    destruct s as [|c t]; [discriminate|].
    destruct (lit plus_sign c) eqn:Ec.
    + destruct t as [|d t1]; [discriminate|].
      destruct (isdecimal d) eqn:Ed; [|discriminate].
      apply N.eqb_eq in Ec. subst c.
      apply (Hgo [plus_sign] d t1); auto.
    + destruct (isdecimal c) eqn:Ed; [|discriminate].
      apply (Hgo [] c t); auto.
  - intros (m & sign & digits & -> & (ws & w & -> & Hsign & Hne & Hd & Hws
                                      & Hw) & Hg).
    destruct digits as [|d ds]; [destruct Hne; reflexivity|].
    simpl in Hd. apply andb_prop in Hd. destruct Hd as [Hd Hds].
    assert (Hdrop : dropWhile isdecimal (ds ++ ws ++ w ++ m_rest r)
                    = ws ++ w ++ m_rest r).
    { apply dropWhile_app; [exact Hds|].
      apply units_tail_not_decimal; assumption. }
    assert (Hsp : dropWhile isspace (ws ++ w ++ m_rest r) = w ++ m_rest r).
    { apply dropWhile_app; [exact Hws|].
      apply (spells_head_not_space (N_of_ascii "U") (str "NIDADES"));
        [exact space_not_U|exact Hw]. }
    assert (Hfin : exec len0 (nocase (str "UNIDADES"))
                     (close_group
                        (open_group st0
                           ((sign ++ d :: ds) ++ ws ++ w ++ m_rest r))
                        (ws ++ w ++ m_rest r))
                     (w ++ m_rest r) = Some r).
    { rewrite close_open_prefix. apply exec_nocase. exists w. auto. }
    destruct Hsign as [-> | ->]; norm_app; cbn [app] in Hfin.
    + rewrite (decimal_not_plus d Hd), Hd, Hdrop, Hsp.
      revert Hfin. norm_app. auto.
    + unfold lit at 1. rewrite N.eqb_refl, Hd, Hdrop, Hsp.
      revert Hfin. norm_app. auto.
Qed.

(** ** Leftmost search *)

Lemma search_from_none len0 re s :
  (forall a b, s = a ++ b -> exec len0 re st0 b = None) ->
  search_from len0 re s = None.
Proof.
  induction s as [|c t IH]; intros H; cbn [search_from].
  - rewrite (H [] [] eq_refl). reflexivity.
  - rewrite (H [] (c :: t) eq_refl). apply IH.
    intros a b ->. apply (H (c :: a) b). reflexivity.
Qed.

Lemma search_from_first len0 re a : forall b r,
  (forall a1 a2, a = a1 ++ a2 -> a2 <> [] ->
                 exec len0 re st0 (a2 ++ b) = None) ->
  exec len0 re st0 b = Some r ->
  search_from len0 re (a ++ b) = Some r.
Proof.
  induction a as [|c a IH]; intros b r Hbefore Hb.
  - destruct b; simpl; rewrite Hb; reflexivity.
  - cbn [app search_from].
    assert (E : exec len0 re st0 ((c :: a) ++ b) = None)
      by (apply (Hbefore [] (c :: a) eq_refl); discriminate).
    cbn [app] in E. rewrite E.
    apply IH; [|exact Hb].
    intros a1 a2 -> Hne. apply (Hbefore (c :: a1) a2); [reflexivity|exact Hne].
Qed.

Lemma parse_stock_none text :
  (forall a m sign digits b,
      text = a ++ m ++ b -> ~ units_marker m sign digits) ->
  _parse_stock text = None.
Proof.
  intros H. unfold _parse_stock, re_search.
  destruct (isnil text); [reflexivity|].
  rewrite search_from_none; [reflexivity|].
  intros a b ->.
  destruct (exec (length (a ++ b)) _UNITS_RE st0 b) as [r|] eqn:E;
    [|reflexivity].
  apply exec_units_some in E. destruct E as (m & sign & digits & -> & Hm & _).
  destruct (H a m sign digits (m_rest r) eq_refl Hm).
Qed.

Lemma filter_no_plus digits :
  forallb isdecimal digits = true ->
  filter (fun c : char => negb (c =? plus_sign)) digits = digits.
Proof.
  induction digits as [|d ds IH]; simpl; intros H; [reflexivity|].
  apply andb_prop in H. destruct H as [Hd Hds].
  pose proof (decimal_not_plus d Hd) as E. unfold lit in E. rewrite E.
  simpl. rewrite (IH Hds). reflexivity.
Qed.

Lemma parse_stock_leftmost text a m sign digits b :
  text = a ++ m ++ b ->
  units_marker m sign digits ->
  (forall a' m' sign' digits' b',
      text = a' ++ m' ++ b' -> units_marker m' sign' digits' ->
      (length a <= length a')%nat) ->
  _parse_stock text
  = if Nat.ltb int_max_str_digits (length digits) then None
    else Some (Z.of_N (digits_value 0 digits)).
Proof.
  intros -> Hm Hleft. unfold _parse_stock, re_search.
  assert (Hne : isnil (a ++ m ++ b) = false).
  { destruct Hm as (ws & w & -> & _ & Hne & _ & _ & Hw).
    destruct a; [|reflexivity].
    destruct sign; [|reflexivity].
    destruct digits; [destruct Hne|]; reflexivity. }
  rewrite Hne.
  rewrite (search_from_first _ _ a (m ++ b)
             {| m_groups := [sign ++ digits]; m_rest := b |}).
  - cbn [group m_groups pred nth]. rewrite replace_delete, filter_app.
    destruct Hm as (ws & w & _ & Hsign & Hnd & Hd & _).
    rewrite (filter_no_plus digits Hd).
    replace (filter (fun c : char => negb (c =? plus_sign)) sign)
      with (@nil char) by (destruct Hsign as [-> | ->]; reflexivity).
    cbn [app]. unfold py_int, all_of. rewrite Hd.
    destruct digits; [destruct Hnd|]; reflexivity.
  - intros a1 a2 -> Hne2.
    destruct (exec (length ((a1 ++ a2) ++ m ++ b)) _UNITS_RE st0
                   (a2 ++ m ++ b)) as [r|] eqn:E; [|reflexivity].
    apply exec_units_some in E.
    destruct E as (m' & sign' & digits' & E & Hm' & _).
    assert (Hle : (length (a1 ++ a2) <= length a1)%nat).
    { apply (Hleft a1 m' sign' digits' (m_rest r)); [|exact Hm'].
      rewrite <- E, <- app_assoc. reflexivity. }
    rewrite length_app in Hle. destruct a2; [destruct Hne2; reflexivity|].
    simpl in Hle. lia.
  - apply exec_units_some. exists m, sign, digits. auto.
Qed.

(** C6 (amended): the stock normalizer returns the value of the digit run of
    the leftmost occurrence of an optional plus sign, decimal digits,
    optional blanks and the word [UNIDADES] in any case, whatever text
    surrounds it, the sign left out; a run of more digits than the
    interpreter converts has no value, nor has a text without occurrence. *)
Theorem stock_before_units_marker :
  (forall text,
      (forall a m sign digits b,
          text = a ++ m ++ b -> ~ units_marker m sign digits) ->
      _parse_stock text = None)
  /\ (forall text a m sign digits b,
        text = a ++ m ++ b ->
        units_marker m sign digits ->
        (forall a' m' sign' digits' b',
            text = a' ++ m' ++ b' -> units_marker m' sign' digits' ->
            (length a <= length a')%nat) ->
        _parse_stock text
        = if Nat.ltb int_max_str_digits (length digits) then None
          else Some (Z.of_N (digits_value 0 digits)))
  /\ _parse_stock (str "10 UNIDADES") = Some 10%Z
  /\ _parse_stock (str "+50 UNIDADES") = Some 50%Z
  /\ _parse_stock (str "25 unidades") = Some 25%Z
  /\ _parse_stock (str "Stock: 100 UNIDADES disponibles") = Some 100%Z
  /\ _parse_stock (str "sin stock") = None.
Proof.
  split; [exact parse_stock_none|].
  split; [exact parse_stock_leftmost|].
  repeat split; vm_compute; reflexivity.
Qed.

Lemma C6_witness :
  _parse_stock (str "+50 unidades en bodega") = Some 50%Z.
Proof.
  apply (proj1 (proj2 stock_before_units_marker)
               (str "+50 unidades en bodega")
               [] (str "+50 unidades") [plus_sign] (str "50")
               (str " en bodega")).
  - reflexivity.
  - exists [blank], (str "unidades").
    split; [reflexivity|]. split; [right; reflexivity|].
    split; [discriminate|]. split; [vm_compute; reflexivity|].
    split; [reflexivity|].
    repeat constructor.
  - intros. apply Nat.le_0_l.
Defined.

(** C6 as stated fails: the marker of the code is [UNIDADES], so the claim's
    examples with [UNITS] have no value; and a digit run beyond the
    interpreter's conversion limit has no value either. *)
Lemma C6_counterexample :
  _parse_stock (str "10 UNITS") = None
  /\ _parse_stock (str "+50 UNITS") = None
  /\ _parse_stock (str "25 units") = None
  /\ _parse_stock (repeat 0x31 4301 ++ str " UNIDADES") = None.
Proof. repeat split; vm_compute; reflexivity. Qed.

(** ** The name cleaner *)

Lemma exec_blanks len0 s :
  exec len0 [Plus isspace] st0 s
  = match s with
    | c :: t =>
        if isspace c then
          Some {| m_groups := []; m_rest := dropWhile isspace t |}
        else None
    | [] => None
    end.
Proof.
  destruct s as [|c t]; [reflexivity|]. cbn [exec].
  destruct (isspace c); [|reflexivity].
  apply greedy_longest. reflexivity.
Qed.

Lemma sub_skip len0 re repl : forall n x b,
  length x = n ->
  sub_from len0 re repl n (x ++ b) = sub_from len0 re repl 0 b.
Proof.
  induction n as [|n IH]; intros x b Hx.
  - destruct x; [reflexivity|discriminate Hx].
  - destruct x as [|c x]; [discriminate Hx|]. simpl. apply IH.
    simpl in Hx. lia.
Qed.

Lemma collapse_after_blank s :
  collapse true s = collapse false (dropWhile isspace s).
Proof.
  induction s as [|c t IH]; [reflexivity|]. simpl.
  destruct (isspace c) eqn:E; [exact IH|].
  simpl. rewrite E. reflexivity.
Qed.

Lemma length_take_drop p s :
  length s = (length (takeWhile p s) + length (dropWhile p s))%nat.
Proof. rewrite <- length_app, take_drop. reflexivity. Qed.

Lemma sub_blanks len0 : forall n s,
  (length s <= n)%nat ->
  sub_from len0 [Plus isspace] [blank] 0 s = collapse false s.
Proof.
  induction n as [|n IH]; intros s Hn.
  - destruct s; [reflexivity|simpl in Hn; lia].
  - destruct s as [|c t]; [reflexivity|].
    cbn [sub_from]. rewrite exec_blanks. cbn [collapse].
    destruct (isspace c).
    + unfold consumed. cbn [m_rest length app].
      rewrite (length_take_drop isspace t) at 1.
      replace (S (length (takeWhile isspace t)
                  + length (dropWhile isspace t))
               - length (dropWhile isspace t))%nat
        with (S (length (takeWhile isspace t))) by lia.
      rewrite <- (take_drop isspace t) at 2.
      rewrite sub_skip by reflexivity.
      rewrite IH, collapse_after_blank; [reflexivity|].
      pose proof (length_take_drop isspace t). simpl in Hn. lia.
    + rewrite IH; [reflexivity|]. simpl in Hn. lia.
Qed.

Lemma cleanup_name_collapse n :
  _cleanup_name n
  = collapse false (strip (match n with Some s => s | None => [] end)).
Proof. unfold _cleanup_name, re_sub. apply (sub_blanks _ _ _ (le_n _)). Qed.

Lemma tidy_collapse s : forall b,
  tidy_from b (collapse b s) = negb (last_blank b s).
Proof.
  induction s as [|c t IH]; intros b; [reflexivity|]. simpl.
  destruct (isspace c) eqn:E.
  - destruct b; simpl; apply IH.
  - simpl. rewrite E. apply IH.
Qed.

Lemma last_blank_rev s : forall b,
  last_blank b s = match rev s with [] => b | c :: _ => isspace c end.
Proof.
  induction s as [|c t IH]; intros b; [reflexivity|]. simpl.
  rewrite IH. destruct (rev t); reflexivity.
Qed.

Lemma dropWhile_snoc p a c :
  p c = false -> dropWhile p (a ++ [c]) = dropWhile p a ++ [c].
Proof.
  intros Hc. induction a as [|x a IH]; simpl.
  - rewrite Hc. reflexivity.
  - destruct (p x); [exact IH|reflexivity].
Qed.

Lemma rstrip_head s : head_fails isspace s -> head_fails isspace (rstrip s).
Proof.
  destruct s as [|c t]; [intros _; exact I|]. simpl. intros Hc.
  unfold rstrip, lstrip. simpl rev.
  rewrite (dropWhile_snoc isspace (rev t) c Hc), rev_app_distr. exact Hc.
Qed.

Lemma strip_head s : head_fails isspace (strip s).
Proof. apply rstrip_head, dropWhile_head. Qed.

Lemma strip_last s : last_blank false (strip s) = false.
Proof.
  rewrite last_blank_rev. unfold strip, rstrip. rewrite rev_involutive.
  pose proof (dropWhile_head isspace (rev (lstrip s))) as H.
  unfold lstrip at 1. destruct (dropWhile isspace (rev (lstrip s)));
    [reflexivity|exact H].
Qed.

Lemma cleanup_name_tidy n : tidy (_cleanup_name n) = true.
Proof.
  rewrite cleanup_name_collapse.
  set (s := strip _).
  pose proof (strip_head (match n with Some s => s | None => [] end)) as Hh.
  pose proof (strip_last (match n with Some s => s | None => [] end)) as Hl.
  fold s in Hh, Hl. destruct s as [|c t]; [reflexivity|].
  simpl in Hh, Hl. unfold tidy. simpl. rewrite Hh in *. simpl.
  rewrite Hh, tidy_collapse, Hl. reflexivity.
Qed.

Lemma tidy_from_last s : forall b,
  tidy_from b s = true -> last_blank b s = false.
Proof.
  induction s as [|c t IH]; intros b; simpl.
  - destruct b; [discriminate|reflexivity].
  - destruct (isspace c).
    + intros H. apply andb_prop in H. destruct H as [_ H]. apply IH, H.
    + apply IH.
Qed.

Lemma tidy_from_collapse s : forall b,
  tidy_from b s = true -> collapse b s = s.
Proof.
  induction s as [|c t IH]; intros b; [reflexivity|]. simpl.
  destruct (isspace c).
  - intros H. apply andb_prop in H. destruct H as [H Ht].
    apply andb_prop in H. destruct H as [Hb Hc].
    destruct b; [discriminate Hb|]. apply N.eqb_eq in Hc. subst c.
    rewrite (IH true Ht). reflexivity.
  - intros H. rewrite (IH false H). reflexivity.
Qed.

Lemma tidy_fixed s :
  tidy s = true -> collapse false (strip s) = s.
Proof.
  unfold tidy. destruct s as [|c t]; [reflexivity|]. cbn [isnil orb].
  intros H.
  assert (Hc : isspace c = false).
  { simpl in H. destruct (isspace c); [discriminate H|reflexivity]. }
  assert (Hs : strip (c :: t) = c :: t).
  { unfold strip. unfold lstrip at 1. simpl. rewrite Hc.
    unfold rstrip.
    pose proof (tidy_from_last _ _ H) as Hl. rewrite last_blank_rev in Hl.
    unfold lstrip.
    destruct (rev (c :: t)) as [|x r] eqn:E.
    - apply (f_equal (@rev char)) in E. rewrite rev_involutive in E.
      exact (eq_sym E).
    - simpl. rewrite Hl. rewrite <- E. apply rev_involutive. }
  rewrite Hs. simpl. rewrite Hc. f_equal.
  apply tidy_from_collapse. simpl in H. rewrite Hc in H. exact H.
Qed.

Lemma tidy_from_blank a : forall b0 w rest,
  tidy_from b0 (a ++ w :: rest) = true -> isspace w = true ->
  w = blank /\ (a = [] -> b0 = false) /\ rest <> []
  /\ head_fails isspace rest.
Proof.
  induction a as [|x a IH]; intros b0 w rest H Hw.
  - simpl in H. rewrite Hw in H.
    apply andb_prop in H. destruct H as [H Hr].
    apply andb_prop in H. destruct H as [Hb Hc].
    apply N.eqb_eq in Hc. split; [exact Hc|].
    split; [intros _; destruct b0; [discriminate Hb|reflexivity]|].
    destruct rest as [|y rest]; [discriminate Hr|].
    split; [discriminate|]. simpl in *.
    destruct (isspace y); [discriminate Hr|reflexivity].
  - simpl in H.
    assert (Ht : exists b1, tidy_from b1 (a ++ w :: rest) = true).
    { destruct (isspace x).
      - apply andb_prop in H. destruct H as [_ H]. exists true. exact H.
      - exists false. exact H. }
    destruct Ht as (b1 & Ht).
    destruct (IH b1 w rest Ht Hw) as (E & _ & Hr & Hh).
    split; [exact E|]. split; [discriminate|]. split; assumption.
Qed.

Lemma tidy_runs s a ws b :
  tidy s = true -> s = a ++ ws ++ b ->
  ws <> [] -> forallb isspace ws = true ->
  ws = [blank] /\ a <> [] /\ b <> [].
Proof.
  intros Ht -> Hne Hws.
  destruct ws as [|w ws]; [destruct Hne; reflexivity|].
  simpl in Hws. apply andb_prop in Hws. destruct Hws as [Hw Hws].
  unfold tidy in Ht.
  assert (H : tidy_from true (a ++ w :: ws ++ b) = true).
  { change (a ++ w :: ws ++ b) with (a ++ (w :: ws) ++ b).
    destruct (a ++ (w :: ws) ++ b) eqn:E; [destruct a; discriminate E|].
    exact Ht. }
  destruct (tidy_from_blank a true w (ws ++ b) H Hw) as (-> & Ha & Hr & Hh).
  destruct ws as [|w' ws].
  - split; [reflexivity|]. split; [|exact Hr].
    intros ->. discriminate (Ha eq_refl).
  - simpl in Hws, Hh. apply andb_prop in Hws. destruct Hws as [Hw' _].
    rewrite Hw' in Hh. discriminate Hh.
Qed.

Lemma collapse_keeps_text s : forall b,
  filter (fun c => negb (isspace c)) (collapse b s)
  = filter (fun c => negb (isspace c)) s.
Proof.
  induction s as [|c t IH]; intros b; [reflexivity|]. simpl.
  destruct (isspace c) eqn:E.
  - destruct b; simpl; apply IH.
  - simpl. rewrite E. simpl. rewrite IH. reflexivity.
Qed.

Lemma lstrip_keeps_text s :
  filter (fun c => negb (isspace c)) (lstrip s)
  = filter (fun c => negb (isspace c)) s.
Proof.
  unfold lstrip. induction s as [|c t IH]; [reflexivity|]. simpl.
  destruct (isspace c) eqn:E; simpl; [exact IH|].
  rewrite E. reflexivity.
Qed.

Lemma strip_keeps_text s :
  filter (fun c => negb (isspace c)) (strip s)
  = filter (fun c => negb (isspace c)) s.
Proof.
  unfold strip, rstrip.
  rewrite filter_rev, lstrip_keeps_text, filter_rev, rev_involutive.
  apply lstrip_keeps_text.
Qed.

(** C7: cleaning a cleaned name changes nothing; in a cleaned name every
    run of blanks is one space with text on both sides, so that the name
    neither begins nor ends with a blank; the missing name cleans to the
    empty string; and cleaning keeps the characters that are not blanks. *)
Theorem cleanup_name_idempotent_and_tidy :
  (forall n, _cleanup_name (Some (_cleanup_name n)) = _cleanup_name n)
  /\ (forall n a ws b,
        _cleanup_name n = a ++ ws ++ b ->
        ws <> [] -> forallb isspace ws = true ->
        ws = [blank] /\ a <> [] /\ b <> [])
  /\ (forall n, head_fails isspace (_cleanup_name n)
                /\ head_fails isspace (rev (_cleanup_name n)))
  /\ _cleanup_name None = []
  /\ (forall s,
        filter (fun c => negb (isspace c)) (_cleanup_name (Some s))
        = filter (fun c => negb (isspace c)) s).
Proof.
  split; [|split; [|split; [|split]]].
  - intros n. rewrite (cleanup_name_collapse (Some _)).
    apply tidy_fixed, cleanup_name_tidy.
  - intros n a ws b E. apply (tidy_runs _ a ws b (cleanup_name_tidy n) E).
  - intros n. pose proof (cleanup_name_tidy n) as Ht.
    split.
    + destruct (_cleanup_name n) as [|c t] eqn:E; [exact I|]. simpl.
      destruct (isspace c) eqn:Ec; [|reflexivity].
      destruct (tidy_runs (c :: t) [] [c] t Ht eq_refl) as (_ & Ha & _).
      * discriminate.
      * simpl. rewrite Ec. reflexivity.
      * destruct Ha. reflexivity.
    + destruct (rev (_cleanup_name n)) as [|c t] eqn:E; [exact I|]. simpl.
      destruct (isspace c) eqn:Ec; [|reflexivity].
      assert (E' : _cleanup_name n = rev t ++ [c] ++ []).
      { rewrite <- (rev_involutive (_cleanup_name n)), E. reflexivity. }
      destruct (tidy_runs _ (rev t) [c] [] Ht E') as (_ & _ & Hb).
      * discriminate.
      * simpl. rewrite Ec. reflexivity.
      * destruct Hb. reflexivity.
  - reflexivity.
  - intros s. rewrite cleanup_name_collapse, collapse_keeps_text.
    apply strip_keeps_text.
Qed.

Lemma C7_witness :
  [blank] = [blank]
  /\ str "Notebook" <> [] /\ str "HP" <> [].
Proof.
  apply (proj1 (proj2 cleanup_name_idempotent_and_tidy)
               (Some (str "  Notebook
   HP ")) (str "Notebook") [blank] (str "HP")).
  - vm_compute. reflexivity.
  - discriminate.
  - reflexivity.
Defined.

(** ** The assembled table *)

Lemma str_eqb_eq a : forall b, str_eqb a b = true <-> a = b.
Proof.
  induction a as [|x a IH]; intros [|y b]; simpl; split; intros H;
    try reflexivity; try discriminate.
  - apply andb_prop in H. destruct H as [Hx Hab].
    apply N.eqb_eq in Hx. apply IH in Hab. subst. reflexivity.
  - inversion H; subst. rewrite N.eqb_refl. apply IH. reflexivity.
Qed.

Lemma str_eqb_refl a : str_eqb a a = true.
Proof. apply str_eqb_eq. reflexivity. Qed.

Lemma no_opening_line_no_row lines :
  (forall raw, In raw lines -> opens_record (strip raw) = false) ->
  _extract_rows_from_text lines = [].
Proof.
  intros H.
  assert (E : map stock_text (_extract_rows_from_text lines) = []).
  { rewrite (rows_by_line stock_text (fun l => l)).
    - rewrite map_id. induction lines as [|raw lines IH]; [reflexivity|].
      simpl. rewrite (H raw (or_introl eq_refl)).
      apply IH. intros r Hr. apply H. right. exact Hr.
    - intros line m st r _ Hr. apply (open_record_last line m st r Hr). }
  apply map_eq_nil in E. exact E.
Qed.

Lemma assemble_keys (path_name : pystr -> pystr) supplier_name input_path r :
  map fst (assemble path_name supplier_name input_path r) = CANONICAL_COLUMNS.
Proof. reflexivity. Qed.

Lemma union_standard seen :
  seen = [] \/ seen = CANONICAL_COLUMNS ->
  union_keys seen CANONICAL_COLUMNS = CANONICAL_COLUMNS.
Proof. intros [-> | ->]; vm_compute; reflexivity. Qed.

Lemma records_columns (out : list record) : forall seen,
  Forall (fun r => map fst r = CANONICAL_COLUMNS) out ->
  seen = [] \/ seen = CANONICAL_COLUMNS ->
  fold_left (fun seen r => union_keys seen (map fst r)) out seen
  = match out with [] => seen | _ => CANONICAL_COLUMNS end.
Proof.
  induction out as [|r out IH]; intros seen Hout Hseen; [reflexivity|].
  inversion Hout as [|r' out' Hr Hout']; subst.
  cbn [fold_left]. rewrite Hr, (union_standard seen Hseen).
  rewrite IH by (auto; right; reflexivity).
  destruct out; reflexivity.
Qed.

Lemma select_all_columns rows :
  exists df',
    df_select CANONICAL_COLUMNS
      (fold_left
         (fun df c =>
            if negb (has_column c (columns df)) then df_add_column c VNone df
            else df)
         CANONICAL_COLUMNS {| columns := CANONICAL_COLUMNS; data := rows |})
    = Some df'
    /\ columns df' = CANONICAL_COLUMNS
    /\ length (data df') = length rows.
Proof.
  assert (E : fold_left
                (fun df c =>
                   if negb (has_column c (columns df))
                   then df_add_column c VNone df else df)
                CANONICAL_COLUMNS
                {| columns := CANONICAL_COLUMNS; data := rows |}
              = {| columns := CANONICAL_COLUMNS; data := rows |})
    by reflexivity.
  rewrite E. unfold df_select. cbn [columns data].
  replace (forallb (fun c => has_column c CANONICAL_COLUMNS) CANONICAL_COLUMNS)
    with true by (vm_compute; reflexivity).
  eexists. split; [reflexivity|].
  split; [reflexivity|]. cbn [data]. apply length_map.
Qed.

Lemma table_of_records (out : list record) :
  Forall (fun r => map fst r = CANONICAL_COLUMNS) out ->
  exists df,
    df_select CANONICAL_COLUMNS
      (fold_left
         (fun df c =>
            if negb (has_column c (columns df)) then df_add_column c VNone df
            else df)
         CANONICAL_COLUMNS
         (if df_empty (DataFrame_of_records out)
          then DataFrame_of_columns CANONICAL_COLUMNS
          else DataFrame_of_records out))
    = Some df
    /\ columns df = CANONICAL_COLUMNS
    /\ length (data df) = length out.
Proof.
  intros Hout. unfold DataFrame_of_records. cbv zeta.
  rewrite (records_columns out [] Hout) by (left; reflexivity).
  destruct out as [|r out].
  - eexists. split; [vm_compute; reflexivity|]. split; reflexivity.
  - unfold df_empty. cbn [columns data map isnil orb].
    change (isnil CANONICAL_COLUMNS) with false. cbn [orb].
    match goal with
    | |- context [{| columns := CANONICAL_COLUMNS; data := ?d |}] =>
        destruct (select_all_columns d) as (df' & E & Hc & Hl)
    end.
    exists df'. split; [exact E|]. split; [exact Hc|].
    rewrite Hl. cbn [length]. rewrite length_map. reflexivity.
Qed.

Lemma has_column_in c cols : In c cols -> has_column c cols = true.
Proof.
  intros H. unfold has_column. apply existsb_exists.
  exists c. split; [exact H|apply str_eqb_refl].
Qed.

Lemma add_no_column cols rows l :
  (forall c, In c l -> In c cols) ->
  fold_left
    (fun df c =>
       if negb (has_column c (columns df)) then df_add_column c VNone df
       else df)
    l {| columns := cols; data := rows |}
  = {| columns := cols; data := rows |}.
Proof.
  induction l as [|c l IH]; intros H; [reflexivity|].
  cbn [fold_left columns].
  rewrite (has_column_in c cols (H c (or_introl eq_refl))). cbn [negb].
  apply IH. intros x Hx. apply H. right. exact Hx.
Qed.

Lemma empty_table cols :
  df_select cols
    (fold_left
       (fun df c =>
          if negb (has_column c (columns df)) then df_add_column c VNone df
          else df)
       cols (DataFrame_of_columns cols))
  = Some {| columns := cols; data := [] |}.
Proof.
  unfold DataFrame_of_columns. rewrite add_no_column by auto.
  unfold df_select. cbn [columns data map].
  replace (forallb (fun c => has_column c cols) cols) with true; [reflexivity|].
  symmetry. apply forallb_forall. intros c Hc. apply has_column_in, Hc.
Qed.

(** C8: when no line of the document opens a record (no line at all, or
    noise and unmatched lines only), the pipeline returns, without error, a
    table of zero rows whose columns are [STANDARD_COLUMNS] in their order,
    whatever that list is; the canonical list has the fifteen columns
    named; and with it and some rows the pipeline returns the same columns,
    one row of cells for each record. *)
Theorem empty_document_keeps_the_columns
        (path_name : pystr -> pystr) (STANDARD_COLUMNS : list pystr)
        (pages : list (option pystr)) (input_path supplier_name : pystr) :
  ((forall line, In line (page_lines pages) ->
                 opens_record (strip line) = false) ->
   ingest_idc_pdf path_name STANDARD_COLUMNS pages input_path supplier_name
   = Some {| columns := STANDARD_COLUMNS; data := [] |})
  /\ CANONICAL_COLUMNS
     = map str
         ["supplier"; "supplier_sku"; "title"; "brand"; "model"; "ean_upc";
          "category"; "condition"; "cost_x1_usd"; "cost_x3_usd";
          "cost_x6_usd"; "tax_included"; "stock"; "eta_text";
          "source_file"]%string
  /\ length CANONICAL_COLUMNS = 15%nat
  /\ exists df,
       ingest_idc_pdf path_name CANONICAL_COLUMNS pages input_path
                      supplier_name = Some df
       /\ columns df = CANONICAL_COLUMNS
       /\ length (data df)
          = length (_extract_rows_from_text (page_lines pages)).
Proof.
  split; [|split; [reflexivity|split; [reflexivity|]]].
  - intros H. unfold ingest_idc_pdf. cbv zeta.
    rewrite (no_opening_line_no_row _ H). cbn [map].
    change (DataFrame_of_records []) with {| columns := []; data := [] |}.
    change (df_empty {| columns := []; data := [] |}) with true. cbv iota.
    apply empty_table.
  - unfold ingest_idc_pdf. cbv zeta.
    set (rows := _extract_rows_from_text (page_lines pages)).
    assert (Hout : Forall (fun r => map fst r = CANONICAL_COLUMNS)
                     (map (assemble path_name supplier_name input_path)
                          rows)).
    { apply Forall_forall. intros r Hr. apply in_map_iff in Hr.
      destruct Hr as (x & <- & _). apply assemble_keys. }
    rewrite <- (length_map (assemble path_name supplier_name input_path)
                          rows).
    revert Hout.
    generalize (map (assemble path_name supplier_name input_path) rows).
    exact table_of_records.
Qed.

Lemma C8_witness :
  ingest_idc_pdf (fun p => p) CANONICAL_COLUMNS
                 [Some (str "SKU IDC
Sin datos"); None] (str "empty.pdf") (str "IDC")
  = Some {| columns := CANONICAL_COLUMNS; data := [] |}.
Proof.
  apply (proj1 (empty_document_keeps_the_columns
                  (fun p => p) CANONICAL_COLUMNS [Some (str "SKU IDC
Sin datos"); None]
                  (str "empty.pdf") (str "IDC"))).
  intros line H. vm_compute in H.
  destruct H as [<-|[<-|[]]]; vm_compute; reflexivity.
Defined.

(** ** The registry *)

Lemma startswith_app sub b : startswith sub (sub ++ b) = true.
Proof.
  induction sub as [|c sub IH]; [reflexivity|].
  simpl. rewrite N.eqb_refl. exact IH.
Qed.

Lemma contains_startswith sub s :
  startswith sub s = true -> contains sub s = true.
Proof. destruct s; simpl; intros ->; reflexivity. Qed.

Lemma contains_app sub a b : contains sub (a ++ sub ++ b) = true.
Proof.
  induction a as [|c a IH].
  - cbn [app]. apply contains_startswith, startswith_app.
  - simpl. rewrite IH. apply orb_true_r.
Qed.

Lemma join_member sep (l : list pystr) x :
  In x l -> exists a b, join sep l = a ++ x ++ b.
Proof.
  induction l as [|y l IH]; [intros []|].
  intros [-> | Hin].
  - destruct l as [|z l].
    + exists [], []. simpl. rewrite app_nil_r. reflexivity.
    + exists [], (sep ++ join sep (z :: l)). reflexivity.
  - destruct (IH Hin) as (a & b & E).
    destruct l as [|z l]; [destruct Hin|].
    exists (y ++ sep ++ a), b.
    change (join sep (y :: z :: l)) with (y ++ sep ++ join sep (z :: l)).
    rewrite E, <- !app_assoc. reflexivity.
Qed.

Section RegistryProperties.

Variable ProviderFunction : Type.
Variable repr : pystr -> pystr.

Lemma lookup_keys (reg : registry ProviderFunction) name :
  In name (keys ProviderFunction reg) <-> lookup name reg <> None.
Proof.
  induction reg as [|[k v] reg IH]; simpl.
  - split; [intros []|intros H; destruct H; reflexivity].
  - destruct (str_eqb k name) eqn:E.
    + apply str_eqb_eq in E. subst. split; [discriminate|auto].
    + split.
      * intros [->|H]; [rewrite str_eqb_refl in E; discriminate E|].
        apply IH, H.
      * intros H. right. apply IH, H.
Qed.

Lemma lookup_setitem_same name func (reg : registry ProviderFunction) :
  lookup name (setitem ProviderFunction name func reg) = Some func.
Proof.
  induction reg as [|[k v] reg IH]; simpl.
  - rewrite str_eqb_refl. reflexivity.
  - destruct (str_eqb k name) eqn:E; simpl; rewrite E; [reflexivity|].
    exact IH.
Qed.

Lemma lookup_setitem_other name func (reg : registry ProviderFunction)
      other :
  other <> name ->
  lookup other (setitem ProviderFunction name func reg) = lookup other reg.
Proof.
  intros Hne. induction reg as [|[k v] reg IH]; simpl.
  - destruct (str_eqb name other) eqn:E; [|reflexivity].
    apply str_eqb_eq in E. destruct Hne. symmetry. exact E.
  - destruct (str_eqb k name) eqn:E; simpl.
    + apply str_eqb_eq in E. subst k.
      destruct (str_eqb name other) eqn:E'; [|reflexivity].
      apply str_eqb_eq in E'. destruct Hne. symmetry. exact E'.
    + rewrite IH. reflexivity.
Qed.

Lemma keys_setitem name func (reg : registry ProviderFunction) :
  keys ProviderFunction (setitem ProviderFunction name func reg)
  = if existsb (fun k => str_eqb k name) (keys ProviderFunction reg)
    then keys ProviderFunction reg
    else keys ProviderFunction reg ++ [name].
Proof.
  unfold keys.
  induction reg as [|[k v] reg IH]; [reflexivity|]. cbn [setitem map fst existsb].
  destruct (str_eqb k name); [reflexivity|]. cbn [map fst orb].
  rewrite IH.
  destruct (existsb _ (map fst reg)); reflexivity.
Qed.

(** C9: looking up a name that is not registered fails with a
    [ValueError] whose message holds the name and the list of the
    registered keys, each of them shown; looking up a registered name
    returns its function; the lookup fails for the unregistered names and
    for no other; and registering never fails, makes the name resolve to
    the new function, leaves the other names as they were and keeps the
    keys in insertion order. *)
Theorem get_provider_fails_only_when_unregistered
        (reg : registry ProviderFunction) (name : pystr) :
  (lookup name reg = None ->
   exists msg,
     get_provider ProviderFunction repr reg name = inl (ValueError msg)
     /\ msg = str "Proveedor no registrado: " ++ name ++ str ". "
              ++ str "Disponibles: "
              ++ list_repr repr (keys ProviderFunction reg)
     /\ contains name msg = true
     /\ contains (list_repr repr (keys ProviderFunction reg)) msg = true
     /\ forall key, In key (keys ProviderFunction reg) ->
                    contains (repr key) msg = true)
  /\ (forall func, lookup name reg = Some func ->
                   get_provider ProviderFunction repr reg name = inr func)
  /\ ((exists msg,
          get_provider ProviderFunction repr reg name
          = inl (ValueError msg))
      <-> ~ In name (keys ProviderFunction reg))
  /\ (forall func,
        snd (register ProviderFunction name func reg) = func
        /\ get_provider ProviderFunction repr
             (fst (register ProviderFunction name func reg)) name
           = inr func
        /\ (forall other, other <> name ->
              lookup other (fst (register ProviderFunction name func reg))
              = lookup other reg)
        /\ keys ProviderFunction
                (fst (register ProviderFunction name func reg))
           = if existsb (fun k => str_eqb k name)
                        (keys ProviderFunction reg)
             then keys ProviderFunction reg
             else keys ProviderFunction reg ++ [name]).
Proof.
  split; [|split; [|split]].
  - intros H. unfold get_provider. rewrite H.
    eexists. split; [reflexivity|]. split; [reflexivity|].
    split; [|split].
    + apply contains_app.
    + rewrite !app_assoc.
      rewrite <- (app_nil_r (list_repr repr (keys ProviderFunction reg)))
        at 2.
      apply contains_app.
    + intros key Hin. unfold list_repr.
      destruct (join_member (str ", ") (map repr (keys ProviderFunction reg))
                            (repr key) (in_map repr _ _ Hin))
        as (a & b & ->).
      rewrite !app_assoc.
      rewrite <- (app_assoc _ (repr key)). rewrite <- (app_assoc _ (repr key ++ b)).
      rewrite <- (app_assoc (repr key)).
      apply contains_app.
  - intros func H. unfold get_provider. rewrite H. reflexivity.
  - unfold get_provider. rewrite lookup_keys.
    destruct (lookup name reg) as [func|]; split.
    + intros (msg & H). discriminate H.
    + intros H. destruct H. discriminate.
    + intros _ H. destruct H. reflexivity.
    + intros _. eexists. reflexivity.
  - intros func. split; [reflexivity|]. unfold get_provider, register.
    cbn [fst]. split; [|split].
    + rewrite lookup_setitem_same. reflexivity.
    + intros other Hne. apply lookup_setitem_other, Hne.
    + apply keys_setitem.
Qed.

End RegistryProperties.

Lemma C9_witness :
  exists msg,
    get_provider nat (fun k => str "'" ++ k ++ str "'")
                 [(str "idc", 1%nat); (str "tecnomega", 2%nat)]
                 (str "proveedor_inexistente")
    = inl (ValueError msg)
    /\ msg = str "Proveedor no registrado: proveedor_inexistente. Disponibles: ['idc', 'tecnomega']".
Proof.
  destruct (proj1 (get_provider_fails_only_when_unregistered
                     nat (fun k => str "'" ++ k ++ str "'")
                     [(str "idc", 1%nat); (str "tecnomega", 2%nat)]
                     (str "proveedor_inexistente")) eq_refl)
    as (msg & E & Hmsg & _).
  exists msg. split; [exact E|]. rewrite Hmsg. reflexivity.
Defined.

Lemma C10_witness :
  _extract_rows_from_text_fuel
    2 [str "Laptop A"; str "123456 Extra $100,00 + iva"]
  = Returned
      (_extract_rows_from_text
         [str "Laptop A"; str "123456 Extra $100,00 + iva"]).
Proof.
  apply (proj1 (proj2 (proj2 (scan_terminates_after_n_iterations
                                [str "Laptop A";
                                 str "123456 Extra $100,00 + iva"])))).
  simpl. lia.
Defined.

Lemma C3_witness :
  _extract_rows_from_text
    [str "Laptop A"; str "SKU IDC"; str "123456 Extra $100,00 + iva"]
  = _extract_rows_from_text
      [str "Laptop A"; str "FORMAS DE PAGO: Efectivo";
       str "123456 Extra $100,00 + iva"].
Proof.
  apply (proj2 (proj2 (noise_lines_reset_and_never_name
                         [str "Laptop A"; str "FORMAS DE PAGO: Efectivo";
                          str "123456 Extra $100,00 + iva"]))
               [str "Laptop A"] (str "FORMAS DE PAGO: Efectivo")
               (str "SKU IDC") [str "123456 Extra $100,00 + iva"]).
  - reflexivity.
  - vm_compute. reflexivity.
  - vm_compute. reflexivity.
Defined.

(** ** How the scan composes *)

Lemma on_line_mode line st :
  st_name_buffer (on_line line st)
  = st_name_buffer
      (on_line line (mode_state (st_name_buffer st) (st_in_continuation st)))
  /\ st_in_continuation (on_line line st)
     = st_in_continuation
         (on_line line
                  (mode_state (st_name_buffer st) (st_in_continuation st)))
  /\ st_rows (on_line line st)
     = st_rows st
       ++ st_rows
            (on_line line
                     (mode_state (st_name_buffer st)
                                 (st_in_continuation st))).
Proof.
  unfold on_line, open_record, mode_state.
  cbn [st_i st_name_buffer st_in_continuation st_rows].
  destruct (is_noise line);
    [cbn [st_name_buffer st_in_continuation st_rows];
     rewrite app_nil_r; auto|].
  destruct (sku_with_price line);
    [cbn [st_name_buffer st_in_continuation st_rows app]; auto|].
  destruct (st_in_continuation st);
    repeat match goal with |- context [if ?b then _ else _] => destruct b end;
    cbn [st_name_buffer st_in_continuation st_rows];
    rewrite app_nil_r; auto.
Qed.

Lemma scan_mode lines : forall st,
  st_name_buffer (scan lines st)
  = st_name_buffer
      (scan lines (mode_state (st_name_buffer st) (st_in_continuation st)))
  /\ st_in_continuation (scan lines st)
     = st_in_continuation
         (scan lines
               (mode_state (st_name_buffer st) (st_in_continuation st)))
  /\ st_rows (scan lines st)
     = st_rows st ++ rows_from (st_name_buffer st) (st_in_continuation st)
                               lines.
Proof.
  unfold rows_from.
  induction lines as [|raw lines IH]; intros st.
  - cbn. rewrite app_nil_r. auto.
  - change (scan (raw :: lines) ?s) with (scan lines (on_line (strip raw) s)).
    destruct (on_line_mode (strip raw) st) as (Hb & Hc & Hr).
    destruct (IH (on_line (strip raw) st)) as (Hb1 & Hc1 & Hr1).
    destruct (IH (on_line (strip raw)
                          (mode_state (st_name_buffer st)
                                      (st_in_continuation st))))
      as (Hb2 & Hc2 & Hr2).
    rewrite Hb1, Hc1, Hr1, Hb2, Hc2, Hr2, Hb, Hc, Hr.
    rewrite <- app_assoc. auto.
Qed.

Lemma rows_of_init lines : _extract_rows_from_text lines = rows_from [] false lines.
Proof. apply extract_rows_scan. Qed.

Lemma rows_from_app buffer cont a b :
  rows_from buffer cont (a ++ b)
  = rows_from buffer cont a
    ++ rows_from (st_name_buffer (scan a (mode_state buffer cont)))
                 (st_in_continuation (scan a (mode_state buffer cont))) b.
Proof.
  unfold rows_from at 1. rewrite scan_app.
  destruct (scan_mode b (scan a (mode_state buffer cont))) as (_ & _ & ->).
  reflexivity.
Qed.

Lemma rows_from_not_opening buffer cont lines :
  Forall (fun raw => opens_record (strip raw) = false) lines ->
  rows_from buffer cont lines = [].
Proof.
  unfold rows_from. revert buffer cont.
  induction lines as [|raw lines IH]; intros buffer cont H; [reflexivity|].
  inversion H as [|x l Hraw Hrest]; subst.
  change (scan (raw :: lines) ?s) with (scan lines (on_line (strip raw) s)).
  destruct (scan_mode lines (on_line (strip raw) (mode_state buffer cont)))
    as (_ & _ & ->).
  rewrite (on_line_not_opening _ _ Hraw). cbn [mode_state st_rows app].
  apply IH, Hrest.
Qed.

(** X1: the rows of a prefix of the lines are never revised: the rows of
    [a ++ b] begin with the rows of [a], and they are the rows of [a] when
    no line of [b] opens a record (a trailing name buffer gives no row). *)
Theorem rows_of_a_prefix_stand (a b : list pystr) :
  _extract_rows_from_text (a ++ b)
  = _extract_rows_from_text a
    ++ rows_from (st_name_buffer (scan a init_state))
                 (st_in_continuation (scan a init_state)) b
  /\ (Forall (fun raw => opens_record (strip raw) = false) b ->
      _extract_rows_from_text (a ++ b) = _extract_rows_from_text a).
Proof.
  assert (E : _extract_rows_from_text (a ++ b)
              = _extract_rows_from_text a
                ++ rows_from (st_name_buffer (scan a init_state))
                             (st_in_continuation (scan a init_state)) b).
  { rewrite !rows_of_init. apply rows_from_app. }
  split; [exact E|].
  intros H. rewrite E, (rows_from_not_opening _ _ _ H). apply app_nil_r.
Qed.

Lemma X1_witness :
  _extract_rows_from_text
    ([str "Laptop A"; str "123456 Extra $100,00 + iva"]
       ++ [str "Monitor B"; str "de 24 pulgadas"])
  = _extract_rows_from_text
      [str "Laptop A"; str "123456 Extra $100,00 + iva"].
Proof.
  apply (proj2 (rows_of_a_prefix_stand
                  [str "Laptop A"; str "123456 Extra $100,00 + iva"]
                  [str "Monitor B"; str "de 24 pulgadas"])).
  repeat constructor.
Defined.

(** X2: a noise line cuts the document in two: the rows are those of the
    lines before it followed by those of the lines after it, scanned from
    the start. *)
Theorem noise_line_splits_the_scan (before after : list pystr)
        (noise : pystr) :
  is_noise (strip noise) = true ->
  _extract_rows_from_text (before ++ noise :: after)
  = _extract_rows_from_text before ++ _extract_rows_from_text after.
Proof.
  intros Hn. rewrite !rows_of_init, rows_from_app. f_equal.
  unfold rows_from at 1.
  change (scan (noise :: after) ?s)
    with (scan after (on_line (strip noise) s)).
  rewrite (on_line_noise _ _ Hn).
  destruct (scan_mode after (after_noise (mode_state
             (st_name_buffer (scan before (mode_state [] false)))
             (st_in_continuation (scan before (mode_state [] false))))))
    as (_ & _ & ->).
  reflexivity.
Qed.

Lemma X2_witness :
  _extract_rows_from_text
    ([str "Laptop A"] ++ str "SKU IDC"
       :: [str "123456 Extra $100,00 + iva"])
  = _extract_rows_from_text [str "Laptop A"]
    ++ _extract_rows_from_text [str "123456 Extra $100,00 + iva"].
Proof.
  apply (noise_line_splits_the_scan
           [str "Laptop A"] [str "123456 Extra $100,00 + iva"]
           (str "SKU IDC")).
  vm_compute. reflexivity.
Defined.

Lemma open_record_mode line m st :
  st_name_buffer (open_record line m st) = []
  /\ st_in_continuation (open_record line m st) = true.
Proof. split; reflexivity. Qed.

Lemma rows_split_at_opening (before after : list pystr) (opening : pystr) :
  opens_record (strip opening) = true ->
  _extract_rows_from_text (before ++ opening :: after)
  = _extract_rows_from_text (before ++ [opening])
    ++ rows_from [] true after.
Proof.
  intros Ho.
  replace (before ++ opening :: after) with ((before ++ [opening]) ++ after)
    by (rewrite <- app_assoc; reflexivity).
  rewrite !rows_of_init, rows_from_app. f_equal.
  rewrite scan_app.
  change (scan [opening] ?s) with (on_line (strip opening) s).
  destruct (on_line_opening (strip opening)
              (scan before (mode_state [] false)) Ho) as (m & _ & ->).
  reflexivity.
Qed.

(** X3: a line that opens a record closes the name before it: the rows of
    the lines after it are those of a scan that starts in continuation mode
    with an empty name buffer, whatever came before. *)
Theorem opening_line_splits_the_scan (before after : list pystr)
        (opening : pystr) :
  opens_record (strip opening) = true ->
  _extract_rows_from_text (before ++ opening :: after)
  = _extract_rows_from_text (before ++ [opening])
    ++ rows_from [] true after.
Proof. exact (rows_split_at_opening before after opening). Qed.

Lemma X3_witness :
  _extract_rows_from_text
    ([str "Laptop A"] ++ str "123456 Extra $100,00 + iva"
       :: [str "678901 Otro $5,00 + iva"])
  = _extract_rows_from_text
      ([str "Laptop A"] ++ [str "123456 Extra $100,00 + iva"])
    ++ rows_from [] true [str "678901 Otro $5,00 + iva"].
Proof.
  apply (opening_line_splits_the_scan
           [str "Laptop A"] [str "678901 Otro $5,00 + iva"]
           (str "123456 Extra $100,00 + iva")).
  vm_compute. reflexivity.
Defined.

(** ** Lines the scan drops *)

Lemma rows_from_skip buffer cont raw after :
  st_name_buffer (on_line (strip raw) (mode_state buffer cont)) = buffer ->
  st_in_continuation (on_line (strip raw) (mode_state buffer cont)) = cont ->
  st_rows (on_line (strip raw) (mode_state buffer cont)) = [] ->
  rows_from buffer cont (raw :: after) = rows_from buffer cont after.
Proof.
  intros Hb Hc Hr. unfold rows_from at 1.
  change (scan (raw :: after) ?s) with (scan after (on_line (strip raw) s)).
  destruct (scan_mode after (on_line (strip raw) (mode_state buffer cont)))
    as (_ & _ & ->).
  rewrite Hb, Hc, Hr. reflexivity.
Qed.

Lemma not_opening_no_sku line :
  is_noise line = false -> opens_record line = false ->
  sku_with_price line = None.
Proof.
  unfold opens_record. intros ->. cbn [negb andb].
  destruct (sku_with_price line); [discriminate|reflexivity].
Qed.

Lemma on_line_stray_price line buffer cont :
  is_noise line = false -> opens_record line = false ->
  contains [dollar] line = true -> starts_with_keyword line = false ->
  on_line line (mode_state buffer cont)
  = {| st_i := 1; st_name_buffer := buffer; st_in_continuation := cont;
       st_rows := [] |}.
Proof.
  intros Hn Ho Hd Hk. unfold on_line.
  rewrite Hn, (not_opening_no_sku line Hn Ho).
  unfold starts_with_keyword in Hk. rewrite Hk, Hd.
  destruct cont; reflexivity.
Qed.

Lemma rows_without_stray_price (before after : list pystr) (stray : pystr) :
  is_noise (strip stray) = false ->
  opens_record (strip stray) = false ->
  contains [dollar] (strip stray) = true ->
  starts_with_keyword (strip stray) = false ->
  _extract_rows_from_text (before ++ stray :: after)
  = _extract_rows_from_text (before ++ after).
Proof.
  intros Hn Ho Hd Hk. rewrite !rows_of_init, !rows_from_app. f_equal.
  apply rows_from_skip;
    rewrite (on_line_stray_price _ _ _ Hn Ho Hd Hk); reflexivity.
Qed.

(** X4: a line with a currency marker that is neither noise nor a line with
    SKU, and that no product keyword begins, is dropped in either mode: the
    rows are those of the document without it. *)
Theorem stray_price_line_is_dropped (before after : list pystr)
        (stray : pystr) :
  is_noise (strip stray) = false ->
  opens_record (strip stray) = false ->
  contains [dollar] (strip stray) = true ->
  starts_with_keyword (strip stray) = false ->
  _extract_rows_from_text (before ++ stray :: after)
  = _extract_rows_from_text (before ++ after).
Proof. exact (rows_without_stray_price before after stray). Qed.

Lemma X4_witness :
  _extract_rows_from_text
    ([str "Laptop A"] ++ str "antes $120,00"
       :: [str "123456 Extra $100,00 + iva"])
  = _extract_rows_from_text
      ([str "Laptop A"] ++ [str "123456 Extra $100,00 + iva"]).
Proof.
  apply (stray_price_line_is_dropped
           [str "Laptop A"] [str "123456 Extra $100,00 + iva"]
           (str "antes $120,00")); vm_compute; reflexivity.
Defined.

Lemma on_line_dropped_after_record line buffer :
  dropped_after_record line = true ->
  on_line line (mode_state buffer true)
  = {| st_i := 1; st_name_buffer := buffer; st_in_continuation := true;
       st_rows := [] |}.
Proof.
  unfold dropped_after_record. intros H.
  apply andb_prop in H. destruct H as [H Hk].
  apply andb_prop in H. destruct H as [Hn Ho].
  apply negb_true_iff in Hn, Ho, Hk.
  unfold on_line. rewrite Hn, (not_opening_no_sku line Hn Ho).
  unfold starts_with_keyword in Hk. cbn [mode_state st_in_continuation].
  rewrite Hk. destruct (contains [dollar] line); reflexivity.
Qed.

Lemma rows_from_dropped buffer desc after :
  Forall (fun raw => dropped_after_record (strip raw) = true) desc ->
  rows_from buffer true (desc ++ after) = rows_from buffer true after.
Proof.
  induction desc as [|raw desc IH]; intros H; [reflexivity|].
  inversion H as [|x l Hraw Hrest]; subst.
  cbn [app]. rewrite rows_from_skip.
  - apply IH, Hrest.
  - rewrite (on_line_dropped_after_record _ _ Hraw). reflexivity.
  - rewrite (on_line_dropped_after_record _ _ Hraw). reflexivity.
  - rewrite (on_line_dropped_after_record _ _ Hraw). reflexivity.
Qed.

(** X5: after a line that opens a record, the lines that are neither noise
    nor lines with SKU and that no product keyword begins (the technical
    description of the product) are dropped: the rows are those of the
    document without them. *)
Theorem description_after_record_is_dropped
        (before desc after : list pystr) (opening : pystr) :
  opens_record (strip opening) = true ->
  Forall (fun raw => dropped_after_record (strip raw) = true) desc ->
  _extract_rows_from_text (before ++ opening :: desc ++ after)
  = _extract_rows_from_text (before ++ opening :: after).
Proof.
  intros Ho Hd.
  rewrite (rows_split_at_opening before (desc ++ after) opening Ho).
  rewrite (rows_split_at_opening before after opening Ho).
  rewrite (rows_from_dropped [] desc after Hd). reflexivity.
Qed.

Lemma X5_witness :
  _extract_rows_from_text
    ([str "Laptop A"] ++ str "123456 Extra $100,00 + iva"
       :: [str "Core i5 8GB"; str "pantalla 15 pulgadas"]
       ++ [str "Monitor B"; str "678901 Otro $5,00 + iva"])
  = _extract_rows_from_text
      ([str "Laptop A"] ++ str "123456 Extra $100,00 + iva"
         :: [str "Monitor B"; str "678901 Otro $5,00 + iva"]).
Proof.
  apply (description_after_record_is_dropped
           [str "Laptop A"] [str "Core i5 8GB"; str "pantalla 15 pulgadas"]
           [str "Monitor B"; str "678901 Otro $5,00 + iva"]
           (str "123456 Extra $100,00 + iva")).
  - vm_compute. reflexivity.
  - repeat constructor.
Defined.

(** ** The name of a record *)

Lemma existsb_none (p q : char -> bool) s :
  (forall c, p c = true -> q c = false) ->
  forallb p s = true -> existsb q s = false.
Proof.
  intros Hpq. induction s as [|c s IH]; simpl; intros H; [reflexivity|].
  apply andb_prop in H. destruct H as [Hc Hs].
  rewrite (Hpq c Hc), (IH Hs). reflexivity.
Qed.

Lemma dollar_not_decimal c : lit dollar c = true -> isdecimal c = false.
Proof. apply (disjoint_by_enum _ _ _ (lit_enum dollar)). reflexivity. Qed.

Lemma decimal_not_dollar c : isdecimal c = true -> lit dollar c = false.
Proof. apply disjoint_sym, dollar_not_decimal. Qed.

Lemma rest_has_dollar line m :
  sku_with_price line = Some m -> contains [dollar] (group m 2) = true.
Proof.
  intros H. apply sku_with_price_inv in H.
  destruct H as ((w & ws & tail & E & _ & Hd & Hw & _ & _ & Htail) & Hc).
  rewrite contains_char in *.
  apply existsb_exists in Hc. destruct Hc as (x & Hin & Hx).
  apply N.eqb_eq in Hx. subst x.
  apply existsb_exists. exists dollar. split; [|reflexivity].
  rewrite E in Hin.
  apply in_app_or in Hin. destruct Hin as [Hin|Hin].
  { rewrite forallb_forall in Hd. apply Hd in Hin. discriminate Hin. }
  apply in_app_or in Hin. destruct Hin as [Hin|Hin].
  { rewrite forallb_forall in Hw. apply Hw in Hin. discriminate Hin. }
  apply in_app_or in Hin. destruct Hin as [Hin|Hin]; [exact Hin|].
  destruct Htail as [-> | ->]; [destruct Hin|].
  destruct Hin as [Hin|[]]. discriminate Hin.
Qed.

Lemma hd_split sep s :
  hd [] (split sep s) = takeWhile (fun c => negb (c =? sep)) s.
Proof.
  induction s as [|c t IH]; [reflexivity|]. simpl.
  destruct (c =? sep); [reflexivity|]. simpl.
  rewrite <- IH. destruct (split sep t); reflexivity.
Qed.

Lemma forallb_dropWhile (p q : char -> bool) s :
  forallb p s = true -> forallb p (dropWhile q s) = true.
Proof.
  induction s as [|c t IH]; simpl; intros H; [reflexivity|].
  destruct (q c); [|exact H].
  apply andb_prop in H. apply IH, H.
Qed.

Lemma forallb_strip (p : char -> bool) s :
  forallb p s = true -> forallb p (strip s) = true.
Proof.
  intros H. unfold strip, rstrip, lstrip.
  apply forallb_rev, forallb_dropWhile, forallb_rev, forallb_dropWhile, H.
Qed.

Lemma before_price_no_dollar rest :
  contains [dollar] (before_price rest) = false.
Proof.
  unfold before_price. rewrite contains_char, hd_split.
  apply (existsb_none (fun c => negb (c =? dollar))).
  - intros c Hc. apply negb_true_iff in Hc. exact Hc.
  - apply forallb_strip, takeWhile_all.
Qed.

Lemma open_record_named line m st :
  sku_with_price line = Some m ->
  open_record line m st
  = {| st_i := S (st_i st);
       st_name_buffer := [];
       st_in_continuation := true;
       st_rows :=
         st_rows st ++
         [{| sku := group m 1;
             name :=
               _cleanup_name
                 (Some (join [blank]
                             (st_name_buffer st ++ name_tail (group m 2))));
             x1 := price_at (_extract_prices_from_line line) 0;
             x3 := price_at (_extract_prices_from_line line) 1;
             x6 := price_at (_extract_prices_from_line line) 2;
             stock_text := line; eta_text := line |}] |}.
Proof.
  intros H. unfold open_record. rewrite (rest_has_dollar line m H).
  unfold name_tail, before_price.
  destruct (isnil (strip (hd [] (split dollar (group m 2)))));
    cbn [negb]; rewrite ?app_nil_r; reflexivity.
Qed.

(** X6: in a line with SKU and prices the text after the SKU always holds
    the currency marker, so that the name of its row is the cleaned join of
    the buffered fragments and, unless it is empty, of the text between the
    SKU and the first currency marker, which holds no marker itself: the
    branch that would take the whole rest of the line is never run. *)
Theorem name_ends_before_the_first_price (line : pystr) (m : mresult)
        (st : state) :
  sku_with_price line = Some m ->
  contains [dollar] (group m 2) = true
  /\ contains [dollar] (before_price (group m 2)) = false
  /\ exists r,
       st_rows (open_record line m st) = st_rows st ++ [r]
       /\ name r
          = _cleanup_name
              (Some (join [blank]
                          (st_name_buffer st ++ name_tail (group m 2)))).
Proof.
  intros H. split; [exact (rest_has_dollar line m H)|].
  split; [apply before_price_no_dollar|].
  rewrite (open_record_named line m st H).
  eexists. split; reflexivity.
Qed.

Lemma X6_witness :
  contains [dollar] (str "Extra $100,00 + iva") = true.
Proof.
  apply (proj1 (name_ends_before_the_first_price
                  (str "123456 Extra $100,00 + iva")
                  {| m_groups := [str "123456"; str "Extra $100,00 + iva"];
                     m_rest := [] |}
                  init_state eq_refl)).
Defined.

Lemma on_line_name_line line buffer :
  name_line line = true ->
  on_line line (mode_state buffer false)
  = {| st_i := 1; st_name_buffer := buffer ++ [line];
       st_in_continuation := false; st_rows := [] |}.
Proof.
  unfold name_line. intros H.
  apply andb_prop in H. destruct H as [H Hd].
  apply andb_prop in H. destruct H as [Hn Ho].
  apply negb_true_iff in Hn, Ho, Hd.
  unfold on_line. rewrite Hn, (not_opening_no_sku line Hn Ho).
  cbn [mode_state st_in_continuation]. rewrite Hd. reflexivity.
Qed.

Lemma scan_name_lines names : forall buffer,
  Forall (fun raw => name_line (strip raw) = true) names ->
  st_name_buffer (scan names (mode_state buffer false))
  = buffer ++ map strip names
  /\ st_in_continuation (scan names (mode_state buffer false)) = false
  /\ st_rows (scan names (mode_state buffer false)) = [].
Proof.
  induction names as [|raw names IH]; intros buffer H.
  - cbn. rewrite app_nil_r. auto.
  - inversion H as [|x l Hraw Hrest]; subst.
    change (scan (raw :: names) ?s) with (scan names (on_line (strip raw) s)).
    rewrite (on_line_name_line _ buffer Hraw).
    destruct (scan_mode names
                {| st_i := 1; st_name_buffer := buffer ++ [strip raw];
                   st_in_continuation := false; st_rows := [] |})
      as (Hb & Hc & Hr).
    cbn [st_name_buffer st_in_continuation st_rows app] in Hb, Hc, Hr.
    destruct (IH (buffer ++ [strip raw]) Hrest) as (Hb' & Hc' & Hr').
    rewrite Hb, Hc, Hr. unfold rows_from.
    rewrite Hb', Hc', Hr', <- app_assoc. auto.
Qed.

Lemma rows_from_named buffer names opening m :
  Forall (fun raw => name_line (strip raw) = true) names ->
  is_noise (strip opening) = false ->
  sku_with_price (strip opening) = Some m ->
  rows_from buffer false (names ++ [opening])
  = [{| sku := group m 1;
        name :=
          _cleanup_name
            (Some (join [blank]
                        (buffer ++ map strip names
                                ++ name_tail (group m 2))));
        x1 := price_at (_extract_prices_from_line (strip opening)) 0;
        x3 := price_at (_extract_prices_from_line (strip opening)) 1;
        x6 := price_at (_extract_prices_from_line (strip opening)) 2;
        stock_text := strip opening; eta_text := strip opening |}].
Proof.
  intros Hnames Hn Hm. rewrite rows_from_app.
  destruct (scan_name_lines names buffer Hnames) as (Hb & Hc & Hr).
  unfold rows_from at 1. rewrite Hb, Hc, Hr. cbn [app].
  unfold rows_from.
  change (scan [opening] ?s) with (on_line (strip opening) s).
  unfold on_line. rewrite Hn, Hm.
  rewrite (open_record_named _ _ _ Hm).
  cbn [mode_state st_name_buffer st_rows app]. rewrite <- app_assoc.
  reflexivity.
Qed.

Lemma rows_of_named_record names opening m :
  Forall (fun raw => name_line (strip raw) = true) names ->
  is_noise (strip opening) = false ->
  sku_with_price (strip opening) = Some m ->
  _extract_rows_from_text (names ++ [opening])
  = [{| sku := group m 1;
        name :=
          _cleanup_name
            (Some (join [blank] (map strip names ++ name_tail (group m 2))));
        x1 := price_at (_extract_prices_from_line (strip opening)) 0;
        x3 := price_at (_extract_prices_from_line (strip opening)) 1;
        x6 := price_at (_extract_prices_from_line (strip opening)) 2;
        stock_text := strip opening; eta_text := strip opening |}].
Proof.
  intros Hnames Hn Hm. rewrite rows_of_init.
  apply (rows_from_named [] names opening m Hnames Hn Hm).
Qed.

(** X7: when the lines before a line with SKU and prices are neither noise
    nor lines with SKU and hold no currency marker, the scan gives one row,
    whose name is the cleaned join, in order, of those lines stripped and of
    the text between the SKU and the first price. *)
Theorem name_joins_the_lines_before (names : list pystr) (opening : pystr)
        (m : mresult) :
  Forall (fun raw => name_line (strip raw) = true) names ->
  is_noise (strip opening) = false ->
  sku_with_price (strip opening) = Some m ->
  _extract_rows_from_text (names ++ [opening])
  = [{| sku := group m 1;
        name :=
          _cleanup_name
            (Some (join [blank] (map strip names ++ name_tail (group m 2))));
        x1 := price_at (_extract_prices_from_line (strip opening)) 0;
        x3 := price_at (_extract_prices_from_line (strip opening)) 1;
        x6 := price_at (_extract_prices_from_line (strip opening)) 2;
        stock_text := strip opening; eta_text := strip opening |}].
Proof. exact (rows_of_named_record names opening m). Qed.

Lemma X7_witness :
  map name
      (_extract_rows_from_text
         ([str "  Laptop Notebook HP"; str "ProBook 450 G8 "]
            ++ [str "123456 Core i5  8GB $1.200,00 + iva"]))
  = [str "Laptop Notebook HP ProBook 450 G8 Core i5 8GB"].
Proof.
  rewrite (name_joins_the_lines_before
             [str "  Laptop Notebook HP"; str "ProBook 450 G8 "]
             (str "123456 Core i5  8GB $1.200,00 + iva")
             {| m_groups := [str "123456"; str "Core i5  8GB $1.200,00 + iva"];
                m_rest := [] |}).
  - vm_compute. reflexivity.
  - repeat constructor.
  - vm_compute. reflexivity.
  - vm_compute. reflexivity.
Defined.

(** ** What every row holds *)

Lemma scan_rows_Forall (P : row -> Prop) :
  (forall line m st r,
      sku_with_price line = Some m ->
      st_rows (open_record line m st) = st_rows st ++ [r] -> P r) ->
  forall lines st,
    Forall P (st_rows st) -> Forall P (st_rows (scan lines st)).
Proof.
  intros HP. induction lines as [|raw lines IH]; intros st Hst; [exact Hst|].
  change (scan (raw :: lines) st) with (scan lines (on_line (strip raw) st)).
  apply IH.
  destruct (opens_record (strip raw)) eqn:E.
  - destruct (on_line_opening _ st E) as (m & Hm & ->).
    destruct (open_record_rows (strip raw) m st) as (r & Hr & _).
    rewrite Hr. apply Forall_app. split; [exact Hst|].
    constructor; [exact (HP _ _ _ _ Hm Hr)|constructor].
  - rewrite (on_line_not_opening _ _ E). exact Hst.
Qed.

Lemma rows_Forall (P : row -> Prop) :
  (forall line m st r,
      sku_with_price line = Some m ->
      st_rows (open_record line m st) = st_rows st ++ [r] -> P r) ->
  forall lines, Forall P (_extract_rows_from_text lines).
Proof.
  intros HP lines. rewrite extract_rows_scan.
  apply (scan_rows_Forall P HP). constructor.
Qed.

Lemma tidy_from_blanks s : forall b,
  tidy_from b s = true ->
  Forall (fun c => isspace c = true -> c = blank) s.
Proof.
  induction s as [|c t IH]; intros b H; constructor.
  - simpl in H. destruct (isspace c); [|discriminate].
    apply andb_prop in H. destruct H as [H _].
    apply andb_prop in H. destruct H as [_ H].
    intros _. apply N.eqb_eq, H.
  - simpl in H. destruct (isspace c).
    + apply andb_prop in H. destruct H as [_ H]. apply (IH true H).
    + apply (IH false H).
Qed.

Lemma tidy_blanks s :
  tidy s = true -> Forall (fun c => isspace c = true -> c = blank) s.
Proof.
  unfold tidy. destruct s as [|c t]; [constructor|]. cbn [isnil orb].
  apply tidy_from_blanks.
Qed.

(** X8: the name of every emitted row is a cleaned name: cleaning it again
    changes nothing, and the one blank character it can hold is the space,
    so that a name is one line of words with single spaces between them. *)
Theorem every_name_is_clean (lines : list pystr) :
  Forall (fun r =>
            _cleanup_name (Some (name r)) = name r
            /\ tidy (name r) = true
            /\ Forall (fun c => isspace c = true -> c = blank) (name r))
         (_extract_rows_from_text lines).
Proof.
  apply rows_Forall. intros line m st r _ Hr.
  destruct (open_record_rows line m st) as (r' & Hr' & _).
  assert (E : exists n, name r = _cleanup_name n).
  { unfold open_record in Hr. cbn [st_rows] in Hr.
    apply app_inj_tail in Hr. destruct Hr as [_ <-]. cbn [name].
    eexists. reflexivity. }
  destruct E as (n & ->).
  split; [|split].
  - rewrite (cleanup_name_collapse (Some _)).
    apply tidy_fixed, cleanup_name_tidy.
  - apply cleanup_name_tidy.
  - apply tidy_blanks, cleanup_name_tidy.
Qed.

Lemma finditer_sound len0 re s : forall skip r,
  In r (finditer_from len0 re skip s) ->
  exists s', exec len0 re st0 s' = Some r.
Proof.
  induction s as [|c t IH]; intros skip r H.
  - destruct skip; [|destruct H]. cbn [finditer_from] in H.
    destruct (exec len0 re st0 []) as [r0|] eqn:E; [|destruct H].
    destruct H as [<-|[]]. exists []. exact E.
  - destruct skip as [|skip]; cbn [finditer_from] in H.
    + destruct (exec len0 re st0 (c :: t)) as [r0|] eqn:E.
      * destruct H as [<-|H]; [exists (c :: t); exact E|].
        apply (IH _ _ H).
      * apply (IH _ _ H).
    + apply (IH _ _ H).
Qed.

Lemma parse_price_of_tier amt :
  amt <> [] -> forallb numpunct amt = true ->
  _parse_price_to_float (dollar :: amt) = py_float (separator_rule amt).
Proof.
  intros Hne Hall. rewrite parse_price_by_rule.
  unfold first_numeric_token. cbn [dropWhile].
  change (negb (numpunct dollar)) with true. cbv iota.
  destruct amt as [|a amt]; [destruct Hne; reflexivity|].
  simpl in Hall. apply andb_prop in Hall. destruct Hall as [Ha Hamt].
  cbn [dropWhile]. rewrite Ha. cbn [negb].
  rewrite <- (app_nil_r (a :: amt)) at 1.
  rewrite (takeWhile_app numpunct (a :: amt) []); [reflexivity| |exact I].
  simpl. rewrite Ha, Hamt. reflexivity.
Qed.

Lemma extracted_price_is_tier line p :
  In p (_extract_prices_from_line line) ->
  exists amt,
    p = dollar :: amt /\ amt <> [] /\ forallb numpunct amt = true
    /\ _parse_price_to_float p = py_float (separator_rule amt).
Proof.
  unfold _extract_prices_from_line, re_finditer. intros H.
  apply in_map_iff in H. destruct H as (r & <- & Hr).
  apply finditer_sound in Hr. destruct Hr as (s' & E).
  apply exec_price_iva_some in E. destruct E as (m & amt & _ & Hm & Hg).
  unfold group. rewrite Hg. cbn [pred nth].
  destruct Hm as (ws1 & ws2 & ws3 & w & _ & _ & Hne & Hall & _).
  exists amt. split; [reflexivity|]. split; [exact Hne|].
  split; [exact Hall|]. apply parse_price_of_tier; assumption.
Qed.

Lemma price_at_tier line k :
  tier_of_amount (price_at (_extract_prices_from_line line) k).
Proof.
  unfold price_at.
  destruct (Nat.ltb k (length (_extract_prices_from_line line))) eqn:E;
    [|left; reflexivity].
  right. apply (extracted_price_is_tier line).
  apply nth_In, Nat.ltb_lt, E.
Qed.

Lemma price_at_empty_later line k k' :
  (k <= k')%nat ->
  price_at (_extract_prices_from_line line) k = [] ->
  price_at (_extract_prices_from_line line) k' = [].
Proof.
  intros Hle H. unfold price_at in *.
  destruct (Nat.ltb k (length (_extract_prices_from_line line))) eqn:E.
  - apply Nat.ltb_lt in E.
    destruct (extracted_price_is_tier line _ (nth_In _ [] E))
      as (amt & Hp & _).
    unfold pystr, char in *. congruence.
  - apply Nat.ltb_ge in E.
    replace (Nat.ltb k' (length (_extract_prices_from_line line)))
      with false; [reflexivity|].
    symmetry. apply Nat.ltb_ge. lia.
Qed.

(** X9: every price tier of every emitted row is empty or is the currency
    marker followed by an amount of digits, points and commas, and the price
    normalizer applied to it is the conversion of that amount after the
    separator rule; the tiers fill from the first, an empty tier having only
    empty tiers after it. *)
Theorem every_tier_reads_back (lines : list pystr) :
  Forall (fun r =>
            tier_of_amount (x1 r) /\ tier_of_amount (x3 r)
            /\ tier_of_amount (x6 r)
            /\ (x1 r = [] -> x3 r = [])
            /\ (x3 r = [] -> x6 r = []))
         (_extract_rows_from_text lines)
  /\ _parse_price_to_float [] = None.
Proof.
  split; [|reflexivity].
  apply rows_Forall. intros line m st r _ Hr.
  destruct (open_record_last line m st r Hr) as (_ & _ & _ & -> & -> & ->).
  split; [apply price_at_tier|]. split; [apply price_at_tier|].
  split; [apply price_at_tier|].
  split; apply price_at_empty_later; lia.
Qed.






Lemma X8_witness :
  Forall (fun r =>
            _cleanup_name (Some (name r)) = name r
            /\ tidy (name r) = true
            /\ Forall (fun c => isspace c = true -> c = blank) (name r))
         (_extract_rows_from_text
            [str "Laptop  A"; str "123456 Extra $100,00 + iva"]).
Proof.
  exact (every_name_is_clean
           [str "Laptop  A"; str "123456 Extra $100,00 + iva"]).
Defined.

Lemma X9_witness :
  Forall (fun r =>
            tier_of_amount (x1 r) /\ tier_of_amount (x3 r)
            /\ tier_of_amount (x6 r)
            /\ (x1 r = [] -> x3 r = [])
            /\ (x3 r = [] -> x6 r = []))
         (_extract_rows_from_text
            [str "123456 Extra $100,00 + iva $95,00 + iva"]).
Proof.
  exact (proj1 (every_tier_reads_back
                  [str "123456 Extra $100,00 + iva $95,00 + iva"])).
Defined.

(** ** The next product *)

Lemma on_line_keyword line buffer :
  is_noise line = false -> opens_record line = false ->
  starts_with_keyword line = true ->
  on_line line (mode_state buffer true)
  = {| st_i := 1; st_name_buffer := buffer ++ [line];
       st_in_continuation := false; st_rows := [] |}.
Proof.
  intros Hn Ho Hk. unfold on_line.
  rewrite Hn, (not_opening_no_sku line Hn Ho).
  unfold starts_with_keyword in Hk. cbn [mode_state st_in_continuation].
  rewrite Hk. reflexivity.
Qed.

Lemma rows_from_keyword buffer keyword rest :
  is_noise (strip keyword) = false ->
  opens_record (strip keyword) = false ->
  starts_with_keyword (strip keyword) = true ->
  rows_from buffer true (keyword :: rest)
  = rows_from (buffer ++ [strip keyword]) false rest.
Proof.
  intros Hn Ho Hk. unfold rows_from at 1.
  change (scan (keyword :: rest) ?s)
    with (scan rest (on_line (strip keyword) s)).
  destruct (scan_mode rest (on_line (strip keyword) (mode_state buffer true)))
    as (_ & _ & ->).
  rewrite (on_line_keyword _ _ Hn Ho Hk). reflexivity.
Qed.

(** X11: after a record, the description lines are dropped up to the first
    line that a product keyword begins; that line and the name lines after
    it, and nothing of the product before, make the name of the next
    record. *)
Theorem keyword_line_begins_the_next_name
        (before desc names : list pystr) (opening keyword opening' : pystr)
        (m' : mresult) :
  opens_record (strip opening) = true ->
  Forall (fun raw => dropped_after_record (strip raw) = true) desc ->
  is_noise (strip keyword) = false ->
  opens_record (strip keyword) = false ->
  starts_with_keyword (strip keyword) = true ->
  Forall (fun raw => name_line (strip raw) = true) names ->
  is_noise (strip opening') = false ->
  sku_with_price (strip opening') = Some m' ->
  _extract_rows_from_text
    (before ++ opening :: desc ++ keyword :: names ++ [opening'])
  = _extract_rows_from_text (before ++ [opening])
    ++ [{| sku := group m' 1;
           name :=
             _cleanup_name
               (Some (join [blank]
                           (strip keyword :: map strip names
                                  ++ name_tail (group m' 2))));
           x1 := price_at (_extract_prices_from_line (strip opening')) 0;
           x3 := price_at (_extract_prices_from_line (strip opening')) 1;
           x6 := price_at (_extract_prices_from_line (strip opening')) 2;
           stock_text := strip opening'; eta_text := strip opening' |}].
Proof.
  intros Ho Hd Hn Hk Hkw Hnames Hn' Hm'.
  rewrite (rows_split_at_opening before _ opening Ho). f_equal.
  rewrite (rows_from_dropped [] desc _ Hd).
  rewrite (rows_from_keyword [] keyword _ Hn Hk Hkw). cbn [app].
  exact (rows_from_named [strip keyword] names opening' m' Hnames Hn' Hm').
Qed.

Lemma X11_witness :
  map name
      (_extract_rows_from_text
         ([] ++ str "123456 Extra $100,00 + iva"
             :: [str "Descripcion tecnica del producto A"]
             ++ str "Monitor Producto B"
             :: [str "de 24 pulgadas"]
             ++ [str "678901 Curvo $200,00 + iva"]))
  = map name (_extract_rows_from_text ([] ++ [str "123456 Extra $100,00 + iva"]))
    ++ [str "Monitor Producto B de 24 pulgadas Curvo"].
Proof.
  rewrite (keyword_line_begins_the_next_name
             [] [str "Descripcion tecnica del producto A"]
             [str "de 24 pulgadas"]
             (str "123456 Extra $100,00 + iva")
             (str "Monitor Producto B")
             (str "678901 Curvo $200,00 + iva")
             {| m_groups := [str "678901"; str "Curvo $200,00 + iva"];
                m_rest := [] |}).
  - vm_compute. reflexivity.
  - vm_compute. reflexivity.
  - repeat constructor.
  - vm_compute. reflexivity.
  - vm_compute. reflexivity.
  - vm_compute. reflexivity.
  - repeat constructor.
  - vm_compute. reflexivity.
  - vm_compute. reflexivity.
Defined.

(** ** The cells of the table *)





Lemma strip_fixed s :
  head_fails isspace s -> last_blank false s = false -> strip s = s.
Proof.
  intros Hh Hl. unfold strip.
  assert (E : lstrip s = s).
  { unfold lstrip. destruct s as [|c t]; [reflexivity|].
    simpl in *. rewrite Hh. reflexivity. }
  rewrite E. unfold rstrip, lstrip.
  rewrite last_blank_rev in Hl.
  destruct (rev s) as [|x r] eqn:Er.
  - apply (f_equal (@rev char)) in Er. rewrite rev_involutive in Er.
    symmetry. exact Er.
  - cbn [dropWhile]. rewrite Hl, <- Er. apply rev_involutive.
Qed.

Lemma strip_idempotent s : strip (strip s) = strip s.
Proof. apply strip_fixed; [apply strip_head|apply strip_last]. Qed.




(** ** The lines of the pages *)

Lemma splitlines_from_no_break s : forall after_cr cur,
  forallb (fun c => negb (islinebreak c)) cur = true ->
  Forall (fun l => forallb (fun c => negb (islinebreak c)) l = true)
         (splitlines_from after_cr cur s).
Proof.
  induction s as [|c t IH]; intros after_cr cur Hcur.
  - cbn [splitlines_from]. destruct (isnil cur); constructor;
      [exact Hcur|constructor].
  - cbn [splitlines_from].
    destruct (after_cr && (c =? 10)); [apply IH, Hcur|].
    destruct (islinebreak c) eqn:E.
    + constructor; [exact Hcur|]. apply IH. reflexivity.
    + apply IH. rewrite forallb_app, Hcur. simpl. rewrite E. reflexivity.
Qed.

Lemma page_lines_trimmed pages :
  Forall trimmed_line (page_lines pages).
Proof.
  unfold page_lines. apply Forall_forall. intros l Hl.
  apply in_flat_map in Hl. destruct Hl as (page & _ & Hl).
  apply in_map_iff in Hl. destruct Hl as (ln & <- & Hln).
  apply filter_In in Hln. destruct Hln as [Hln Hne].
  split; [|split].
  - intros E. rewrite E in Hne. discriminate Hne.
  - apply strip_idempotent.
  - apply forallb_strip.
    pose proof (splitlines_from_no_break
                  (match page with Some t => t | None => [] end)
                  false [] eq_refl) as H.
    rewrite Forall_forall in H. apply H, Hln.
Qed.

Lemma map_strip_trimmed lines :
  Forall trimmed_line lines -> map strip lines = lines.
Proof.
  induction 1 as [|l lines (_ & Hl & _) _ IH]; [reflexivity|].
  simpl. rewrite Hl, IH. reflexivity.
Qed.

(** X13: the lines the pipeline hands to the reconstructor are never empty,
    have no blank at either end and hold no line break, so that stripping
    them again changes nothing and the empty-line test of the noise guard
    never fires on them; a page without text gives no line, and the lines of
    the pages follow each other in page order. *)
Theorem page_lines_are_trimmed (pages pages' : list (option pystr)) :
  Forall trimmed_line (page_lines pages)
  /\ map strip (page_lines pages) = page_lines pages
  /\ Forall (fun line => isnil line = false) (page_lines pages)
  /\ page_lines (None :: pages) = page_lines pages
  /\ page_lines (Some [] :: pages) = page_lines pages
  /\ page_lines (pages ++ pages') = page_lines pages ++ page_lines pages'.
Proof.
  split; [apply page_lines_trimmed|].
  split; [apply map_strip_trimmed, page_lines_trimmed|].
  split.
  - eapply Forall_impl; [|apply page_lines_trimmed].
    intros l (Hne & _). destruct l; [destruct Hne|]; reflexivity.
  - split; [reflexivity|]. split; [reflexivity|].
    unfold page_lines. apply flat_map_app.
Qed.

(** ** Registering twice *)

Lemma setitem_twice (PF : Type) name (f g : PF) (reg : registry PF) :
  setitem PF name g (setitem PF name f reg) = setitem PF name g reg.
Proof.
  induction reg as [|[k v] reg IH]; cbn [setitem].
  - rewrite str_eqb_refl. reflexivity.
  - destruct (str_eqb k name) eqn:E; cbn [setitem]; rewrite E;
      [reflexivity|]. rewrite IH. reflexivity.
Qed.

Lemma existsb_key_in name (l : list pystr) :
  existsb (fun k => str_eqb k name) l = true <-> In name l.
Proof.
  rewrite existsb_exists. split.
  - intros (k & Hk & E). apply str_eqb_eq in E. subst. exact Hk.
  - intros H. exists name. split; [exact H|apply str_eqb_refl].
Qed.

Lemma setitem_nodup (PF : Type) name (f : PF) (reg : registry PF) :
  NoDup (keys PF reg) -> NoDup (keys PF (setitem PF name f reg)).
Proof.
  intros H. rewrite keys_setitem.
  destruct (existsb (fun k => str_eqb k name) (keys PF reg)) eqn:E;
    [exact H|].
  apply NoDup_app; [exact H|repeat constructor; intros []|].
  intros k Hk [Hn|[]]. subst k.
  apply (existsb_key_in name) in Hk. rewrite Hk in E. discriminate E.
Qed.

(** X14: registering keeps the keys of the registry distinct; registering a
    name twice leaves the registry that the second registration alone would
    leave, the key staying where it first came; and a registration adds at
    most one key. *)
Theorem register_keeps_the_keys_distinct
        (PF : Type) (name : pystr) (f g : PF) (reg : registry PF) :
  (NoDup (keys PF reg) -> NoDup (keys PF (fst (register PF name f reg))))
  /\ fst (register PF name g (fst (register PF name f reg)))
     = fst (register PF name g reg)
  /\ keys PF (fst (register PF name g (fst (register PF name f reg))))
     = keys PF (fst (register PF name f reg))
  /\ (length (keys PF (fst (register PF name f reg)))
      <= S (length (keys PF reg)))%nat
  /\ keys PF (fst (register PF name f [])) = [name].
Proof.
  unfold register. cbn [fst].
  split; [apply setitem_nodup|].
  split; [apply setitem_twice|].
  split.
  - rewrite setitem_twice, !keys_setitem. reflexivity.
  - split; [|reflexivity]. rewrite keys_setitem.
    destruct (existsb _ (keys PF reg)); [lia|].
    rewrite length_app. simpl. lia.
Qed.

Lemma X14_witness :
  NoDup (keys nat (fst (register nat (str "idc") 3%nat
                                 [(str "idc", 1%nat);
                                  (str "tecnomega", 2%nat)]))).
Proof.
  apply (proj1 (register_keeps_the_keys_distinct
                  nat (str "idc") 3%nat 3%nat
                  [(str "idc", 1%nat); (str "tecnomega", 2%nat)])).
  repeat constructor; vm_compute; intuition discriminate.
Defined.

(** ** The value of an amount *)

Lemma split_no_sep sep s :
  forallb (fun c => negb (c =? sep)) s = true -> split sep s = [s].
Proof.
  induction s as [|c t IH]; simpl; intros H; [reflexivity|].
  apply andb_prop in H. destruct H as [Hc Ht].
  apply negb_true_iff in Hc. rewrite Hc, (IH Ht). reflexivity.
Qed.

Lemma split_at_sep sep a b :
  forallb (fun c => negb (c =? sep)) a = true ->
  split sep (a ++ sep :: b) = a :: split sep b.
Proof.
  induction a as [|c a IH]; simpl; intros H.
  - rewrite N.eqb_refl. reflexivity.
  - apply andb_prop in H. destruct H as [Hc Ha].
    apply negb_true_iff in Hc. rewrite Hc, (IH Ha). reflexivity.
Qed.

Lemma digit_not_dot c : isascii_digit c = true -> negb (c =? dot) = true.
Proof.
  intros H. apply negb_true_iff.
  apply (disjoint_by_enum isascii_digit (fun c => c =? dot)
           [0x30; 0x31; 0x32; 0x33; 0x34; 0x35; 0x36; 0x37; 0x38; 0x39]);
    [|reflexivity|exact H].
  intros x Hx. cbv [isascii_digit in_range] in Hx. to_prop Hx.
  cbv [In]. lia.
Qed.

Lemma digit_not_comma c : isascii_digit c = true -> (c =? comma) = false.
Proof.
  apply (disjoint_by_enum isascii_digit (fun c => c =? comma)
           [0x30; 0x31; 0x32; 0x33; 0x34; 0x35; 0x36; 0x37; 0x38; 0x39]);
    [|reflexivity].
  intros x Hx. cbv [isascii_digit in_range] in Hx. to_prop Hx.
  cbv [In]. lia.
Qed.

Lemma digit_numpunct c : isascii_digit c = true -> numpunct c = true.
Proof. intros H. unfold numpunct, isascii_digit in *. rewrite H. reflexivity. Qed.

Lemma py_float_point ip fp :
  forallb isascii_digit ip = true -> forallb isascii_digit fp = true ->
  ip ++ fp <> [] ->
  py_float (ip ++ dot :: fp)
  = Some (Z.of_N (digits_value 0 (ip ++ fp)) # pow10 (length fp)).
Proof.
  intros Hip Hfp Hne. unfold py_float.
  rewrite split_at_sep, split_no_sep
    by (eapply forallb_weaken; [exact digit_not_dot|assumption]).
  unfold all_of. rewrite forallb_app, Hip, Hfp.
  destruct (ip ++ fp); [destruct Hne|]; reflexivity.
Qed.

Lemma py_float_digits ip :
  forallb isascii_digit ip = true -> ip <> [] ->
  py_float ip = Some (Z.of_N (digits_value 0 ip) # 1).
Proof.
  intros Hip Hne. unfold py_float.
  rewrite split_no_sep
    by (eapply forallb_weaken; [exact digit_not_dot|assumption]).
  unfold all_of. rewrite Hip.
  destruct ip; [destruct Hne|]; reflexivity.
Qed.

Lemma token_whole text :
  text <> [] -> forallb numpunct text = true ->
  first_numeric_token text = Some text.
Proof.
  intros Hne Hall. unfold first_numeric_token.
  destruct text as [|c t]; [destruct Hne; reflexivity|].
  simpl in Hall. apply andb_prop in Hall. destruct Hall as [Hc Ht].
  cbn [dropWhile]. rewrite Hc. cbn [negb].
  rewrite <- (app_nil_r (c :: t)) at 1.
  rewrite (takeWhile_app numpunct (c :: t) []); [reflexivity| |exact I].
  simpl. rewrite Hc, Ht. reflexivity.
Qed.

Lemma map_comma_digits s :
  forallb isascii_digit s = true ->
  map (fun c : char => if c =? comma then dot else c) s = s.
Proof.
  induction s as [|c t IH]; simpl; intros H; [reflexivity|].
  apply andb_prop in H. destruct H as [Hc Ht].
  rewrite (digit_not_comma c Hc), (IH Ht). reflexivity.
Qed.

Lemma filter_point_digits s :
  forallb isascii_digit s = true ->
  filter (fun c : char => negb (c =? dot)) s = s.
Proof.
  induction s as [|c t IH]; simpl; intros H; [reflexivity|].
  apply andb_prop in H. destruct H as [Hc Ht].
  rewrite (digit_not_dot c Hc), (IH Ht). reflexivity.
Qed.

Lemma without_points_digits ip :
  forallb (fun c => isascii_digit c || (c =? dot)) ip = true ->
  forallb isascii_digit (without_points ip) = true.
Proof.
  unfold without_points.
  induction ip as [|c t IH]; simpl; intros H; [reflexivity|].
  apply andb_prop in H. destruct H as [Hc Ht].
  destruct (c =? dot) eqn:E; simpl; [exact (IH Ht)|].
  rewrite orb_false_r in Hc. rewrite Hc. exact (IH Ht).
Qed.

Lemma without_points_none ip :
  existsb (fun x : char => x =? dot) ip = false -> without_points ip = ip.
Proof.
  unfold without_points.
  induction ip as [|c t IH]; simpl; intros H; [reflexivity|].
  apply orb_false_elim in H. destruct H as [Hc Ht].
  rewrite Hc. simpl. rewrite (IH Ht). reflexivity.
Qed.

Lemma without_points_amount ip fp :
  forallb isascii_digit fp = true ->
  without_points (ip ++ comma :: fp) = without_points ip ++ comma :: fp.
Proof.
  intros Hfp. unfold without_points. rewrite filter_app.
  change (filter (fun c : char => negb (c =? dot)) (comma :: fp))
    with (comma :: filter (fun c : char => negb (c =? dot)) fp).
  rewrite (filter_point_digits fp Hfp). reflexivity.
Qed.

Lemma comma_to_point_amount ip fp :
  forallb isascii_digit ip = true -> forallb isascii_digit fp = true ->
  map (fun c : char => if c =? comma then dot else c) (ip ++ comma :: fp)
  = ip ++ dot :: fp.
Proof.
  intros Hip Hfp. rewrite map_app.
  change (map (fun c : char => if c =? comma then dot else c) (comma :: fp))
    with (dot :: map (fun c : char => if c =? comma then dot else c) fp).
  rewrite (map_comma_digits ip Hip), (map_comma_digits fp Hfp). reflexivity.
Qed.

Lemma separator_rule_comma ip fp :
  forallb (fun c => isascii_digit c || (c =? dot)) ip = true ->
  forallb isascii_digit fp = true ->
  separator_rule (ip ++ comma :: fp) = without_points ip ++ dot :: fp.
Proof.
  intros Hip Hfp.
  assert (Hcomma : existsb (fun x : char => x =? comma) (ip ++ comma :: fp)
                   = true).
  { rewrite existsb_app. simpl. rewrite orb_true_r. reflexivity. }
  assert (Hfpdot : existsb (fun x : char => x =? dot) fp = false).
  { apply (existsb_none isascii_digit); [|exact Hfp].
    intros c Hc. apply negb_true_iff, digit_not_dot, Hc. }
  assert (Hdot : existsb (fun x : char => x =? dot) (ip ++ comma :: fp)
                 = existsb (fun x : char => x =? dot) ip).
  { rewrite existsb_app. simpl. rewrite Hfpdot, orb_false_r. reflexivity. }
  pose proof (without_points_amount ip fp Hfp) as Hw.
  pose proof (comma_to_point_amount (without_points ip) fp
                (without_points_digits ip Hip) Hfp) as Hm.
  unfold separator_rule, without_points in *. cbv zeta.
  unfold pystr, char in *. rewrite Hcomma, Hdot.
  destruct (existsb (fun x => x =? dot) ip) eqn:E; cbn [andb].
  - rewrite Hw. exact Hm.
  - pose proof (without_points_none ip E) as Hn.
    unfold without_points, pystr, char in Hn.
    rewrite Hn in Hm |- *. exact Hm.
Qed.

Lemma numpunct_of_amount ip fp sep :
  forallb (fun c => isascii_digit c || (c =? dot)) ip = true ->
  forallb isascii_digit fp = true -> numpunct sep = true ->
  forallb numpunct (ip ++ sep :: fp) = true.
Proof.
  intros Hip Hfp Hsep. rewrite forallb_app. simpl. rewrite Hsep.
  rewrite (forallb_weaken _ _ fp digit_numpunct Hfp), andb_true_r.
  eapply forallb_weaken; [|exact Hip].
  intros c Hc. unfold numpunct, isascii_digit in *.
  destruct (in_range 48 57 c); [reflexivity|]. simpl in *. rewrite Hc.
  reflexivity.
Qed.

Lemma parse_price_comma ip fp :
  forallb (fun c => isascii_digit c || (c =? dot)) ip = true ->
  forallb isascii_digit fp = true ->
  without_points ip ++ fp <> [] ->
  _parse_price_to_float (ip ++ comma :: fp)
  = Some (Z.of_N (digits_value 0 (without_points ip ++ fp))
          # pow10 (length fp)).
Proof.
  intros Hip Hfp Hne. rewrite parse_price_by_rule, token_whole.
  - rewrite (separator_rule_comma ip fp Hip Hfp).
    apply py_float_point; [apply without_points_digits, Hip|exact Hfp|].
    exact Hne.
  - destruct ip; discriminate.
  - apply numpunct_of_amount; [exact Hip|exact Hfp|reflexivity].
Qed.

Lemma separator_rule_no_comma s :
  forallb (fun c => isascii_digit c || (c =? dot)) s = true ->
  separator_rule s = s.
Proof.
  intros H. unfold separator_rule. cbv zeta.
  replace (existsb (fun x : char => x =? comma) s) with false;
    [rewrite andb_false_r; reflexivity|].
  symmetry. apply (existsb_none (fun c => isascii_digit c || (c =? dot)));
    [|exact H].
  intros c Hc. apply orb_prop in Hc. destruct Hc as [Hc|Hc].
  - apply digit_not_comma, Hc.
  - apply N.eqb_eq in Hc. subst c. reflexivity.
Qed.

Lemma parse_price_point ip fp :
  forallb isascii_digit ip = true -> forallb isascii_digit fp = true ->
  ip ++ fp <> [] ->
  _parse_price_to_float (ip ++ dot :: fp)
  = Some (Z.of_N (digits_value 0 (ip ++ fp)) # pow10 (length fp)).
Proof.
  intros Hip Hfp Hne.
  assert (Hip' : forallb (fun c => isascii_digit c || (c =? dot)) ip = true).
  { eapply forallb_weaken; [|exact Hip]. intros c ->. reflexivity. }
  assert (Hall : forallb (fun c => isascii_digit c || (c =? dot))
                         (ip ++ dot :: fp) = true).
  { rewrite forallb_app, Hip'. simpl.
    eapply forallb_weaken; [|exact Hfp]. intros c ->. reflexivity. }
  rewrite parse_price_by_rule, token_whole.
  - rewrite (separator_rule_no_comma _ Hall).
    apply py_float_point; assumption.
  - destruct ip; discriminate.
  - apply numpunct_of_amount; [exact Hip'|exact Hfp|reflexivity].
Qed.

(** X15: in an amount with one comma, the comma is the decimal point and
    the points before it are grouping marks, dropped wherever they stand:
    the value is the number the digits spell, with as many decimals as
    there are digits after the comma; an amount with a point and no comma
    has the point as decimal point, thousands or not. *)
Theorem comma_is_the_decimal_point (ip fp : pystr) :
  forallb isascii_digit fp = true ->
  (forallb (fun c => isascii_digit c || (c =? dot)) ip = true ->
   without_points ip ++ fp <> [] ->
   _parse_price_to_float (ip ++ comma :: fp)
   = Some (Z.of_N (digits_value 0 (without_points ip ++ fp))
           # pow10 (length fp)))
  /\ (forallb isascii_digit ip = true -> ip ++ fp <> [] ->
      _parse_price_to_float (ip ++ dot :: fp)
      = Some (Z.of_N (digits_value 0 (ip ++ fp)) # pow10 (length fp))).
Proof.
  intros Hfp. split.
  - intros Hip Hne. exact (parse_price_comma ip fp Hip Hfp Hne).
  - intros Hip Hne. exact (parse_price_point ip fp Hip Hfp Hne).
Qed.

Lemma X15_witness :
  _parse_price_to_float (str "12.3.45,678") = Some 12345.678%Q
  /\ _parse_price_to_float (str "1.398") = Some 1.398%Q.
Proof.
  split.
  - apply (proj1 (comma_is_the_decimal_point (str "12.3.45") (str "678")
                                             eq_refl));
      [reflexivity|discriminate].
  - apply (proj2 (comma_is_the_decimal_point (str "1") (str "398") eq_refl));
      [reflexivity|discriminate].
Defined.
